(** * Sale transactions, stock reconciliation and sales analytics

    A shallow embedding of the sale path of the retail system:
    - the Express handlers [POST /api/sales] and [GET /api/analytics/sales]
      of the server, with [readDataFile] / [writeDataFile] over the JSON files;
    - the cart and the pricing of the [Billing] page of the client.

    Conventions of the embedding.
    - A JavaScript number that holds money ([price], [subtotal], [discount],
      [tax], [total]) is an IEEE 754 binary64 value: Rocq's primitive [float],
      with the same rounding as the source.
    - A JavaScript number that holds an identifier, a stock level or a
      quantity is an integer: [Z].  [num] injects it into [float] where the
      source multiplies a price by a quantity.
    - The JSON files are the fields of [Disk].  [readDataFile] is the field
      itself (its [catch] branch, which turns a read error into [[]], is left
      out); a call of [writeDataFile] either replaces one field or throws, as
      told by [Faults].
    - [Disk] holds the values that the handlers hand to [writeDataFile].
      [JSON.stringify] writes a finite double so that [JSON.parse] reads the
      same double back ([-0] comes back as [0]), and writes an infinity or
      [NaN] as [null]; a property that reads an amount back from the file
      states that the amount is finite.
    - [new Date().toISOString()] is the argument [now] of a handler.
    - [Math.max(...xs, 0)] is [Math_max_0] in an engine that takes any number
      of arguments in a call.  [Math_max_spread] is the call in an engine with
      an argument limit, and [post_sales_within] and [post_products_within]
      are the handlers there: below the limit they are [post_sales] and
      [post_products]. *)

From Stdlib Require Import ZArith Floats.
From stdpp Require Import list strings pretty sorting gmap.

Set Warnings "-inexact-float".
Local Open Scope Z_scope.

(** ** JavaScript numbers and arrays *)

(** The double that holds the integer [z] (exact for [|z| < 2^53]). *)
Definition num (z : Z) : float :=
  match z with
  | Z0 => 0%float
  | Zpos _ => PrimFloat.of_uint63 (Uint63.of_Z z)
  | Zneg p => (- PrimFloat.of_uint63 (Uint63.of_Z (Zpos p)))%float
  end.

(** [x || 0] on a number: [0] and [NaN] are falsy. *)
Definition or_zero (x : float) : float :=
  if PrimFloat.is_nan x || PrimFloat.is_zero x then 0%float else x.

(** [Array.prototype.find] and [Array.prototype.findIndex]; [None] stands for
    [undefined] and for [-1]. *)
Definition Array_find {A} (P : A → Prop) `{∀ x, Decision (P x)}
    (l : list A) : option A :=
  snd <$> list_find P l.

Definition Array_findIndex {A} (P : A → Prop) `{∀ x, Decision (P x)}
    (l : list A) : option nat :=
  fst <$> list_find P l.

(** [Math.max(...xs, 0)], in an engine that takes any number of arguments
    (see [Math_max_spread] for the limit). *)
Definition Math_max_0 (xs : list Z) : Z := foldr Z.max 0 xs.

(** ** Data model *)

Module Product.
Record t := mk {
  id : Z;
  name : string;
  sku : string;
  categoryId : Z;
  price : float;
  stock : Z;
  reorderPoint : Z;
  description : string;
  lastUpdated : string
}.
End Product.

Module Category.
Record t := mk {
  id : Z;
  name : string;
  description : string;
  status : string;
  createdAt : string
}.
End Category.

(** One element of [req.body.items]. *)
Module CartLine.
Record t := mk { productId : Z; quantity : Z }.
End CartLine.

(** One element of [sale.items]; also the [CartItem] of the Billing page. *)
Module SaleItem.
Record t := mk {
  productId : Z;
  productName : string;
  sku : string;
  price : float;
  quantity : Z;
  total : float
}.
End SaleItem.

Module Sale.
Record t := mk {
  id : Z;
  items : list SaleItem.t;
  subtotal : float;
  discount : float;
  tax : float;
  total : float;
  paymentMethod : string;
  customerName : string;
  cashierId : Z;
  cashierName : string;
  createdAt : string
}.
End Sale.

(** [req.user], as decoded from the token. *)
Module User.
Record t := mk { id : Z; username : string; role : string }.
End User.

(** [req.body] of [POST /api/sales]; an absent optional field is [None]. *)
Module SaleRequest.
Record t := mk {
  items : list CartLine.t;
  paymentMethod : string;
  customerName : option string;
  discount : option float;
  tax : option float
}.
End SaleRequest.

(** The value stored in [productSales] under a product id. *)
Module ProductSales.
Record t := mk { productName : string; quantity : Z; total : float }.
End ProductSales.

(** One element of [topProducts]. *)
Module TopProduct.
Record t := mk {
  productId : Z;
  productName : string;
  quantity : Z;
  total : float
}.
End TopProduct.

Module AnalyticsResult.
Record t := mk {
  totalSales : float;
  totalTransactions : nat;
  salesByCategory : gmap string float;
  topProducts : list TopProduct.t
}.
End AnalyticsResult.

(** ** The data files *)

Record Disk := mkDisk {
  products_json : list Product.t;
  categories_json : list Category.t;
  sales_json : list Sale.t
}.

Inductive DataFile :=
  | ProductsFile (data : list Product.t)
  | SalesFile (data : list Sale.t).

Definition store (f : DataFile) (d : Disk) : Disk :=
  match f with
  | ProductsFile data => mkDisk data (categories_json d) (sales_json d)
  | SalesFile data => mkDisk (products_json d) (categories_json d) data
  end.

(** [writeDataFile]: [fs.writeFile] either replaces the file or throws, and
    the exception is re-thrown; a failed write is taken to leave the file as
    it was. *)
Definition writeDataFile (throws : bool) (f : DataFile) (d : Disk) : option Disk :=
  if throws then None else Some (store f d).

(** Which of the two writes of a commit throw. *)
Record Faults := mkFaults {
  products_write_throws : bool;
  sales_write_throws : bool
}.

Definition no_faults : Faults := mkFaults false false.

(** ** Responses *)

Inductive Body :=
  | Errors                      (* { errors: errors.array() } *)
  | Message (message : string)  (* { message } *)
  | SaleBody (sale : Sale.t)
  | AnalyticsBody (result : AnalyticsResult.t).

Record Response := mkResponse { status : Z; body : Body }.

Definition server_error : Response := mkResponse 500 (Message "Server error").

(** ** POST /api/sales *)

(** The express-validator chain of the route.  [items] is an array and each
    [productId] an integer by the type of the request; [isInt({ min: 1 })] and
    [isFloat({ min: 0 })] are the two bounds checked on values.

    [optional().isFloat({ min: 0 })]: an absent field passes; a present one is
    matched as a string against the pattern of a decimal number, which
    [Infinity] and [NaN] do not match, and then compared with the bound. *)
Definition float_min_0 (x : option float) : bool :=
  match x with
  | None => true
  | Some v => PrimFloat.is_finite v && (0 <=? v)%float
  end.

Definition validationResult_isEmpty (req : SaleRequest.t) : bool :=
  forallb (λ item, 1 <=? CartLine.quantity item) (SaleRequest.items req)
  && negb (String.eqb (SaleRequest.paymentMethod req) "")
  && float_min_0 (SaleRequest.discount req)
  && float_min_0 (SaleRequest.tax req).

(** The first loop: look each line up, check its stock, price it. *)
Fixpoint price_items (products : list Product.t) (items : list CartLine.t)
    (subtotal : float) (saleItems : list SaleItem.t)
    : Response + (float * list SaleItem.t) :=
  match items with
  | [] => inr (subtotal, saleItems)
  | item :: rest =>
      match Array_find (λ p, Product.id p = CartLine.productId item) products with
      | None =>
          inl (mkResponse 400 (Message
            ("Product with ID " +:+ pretty (CartLine.productId item) +:+ " not found")))
      | Some product =>
          if Product.stock product <? CartLine.quantity item then
            inl (mkResponse 400 (Message
              ("Insufficient stock for " +:+ Product.name product)))
          else
            let itemTotal := (Product.price product * num (CartLine.quantity item))%float in
            price_items products rest (subtotal + itemTotal)%float
              (saleItems ++ [SaleItem.mk (Product.id product) (Product.name product)
                               (Product.sku product) (Product.price product)
                               (CartLine.quantity item) itemTotal])
      end
  end.

(** [p.stock -= quantity; p.lastUpdated = now]. *)
Definition sell (quantity : Z) (now : string) (p : Product.t) : Product.t :=
  Product.mk (Product.id p) (Product.name p) (Product.sku p) (Product.categoryId p)
    (Product.price p) (Product.stock p - quantity) (Product.reorderPoint p)
    (Product.description p) now.

(** The second loop.  [products[-1].stock] throws a [TypeError]: [None]. *)
Fixpoint update_stock (now : string) (products : list Product.t)
    (items : list CartLine.t) : option (list Product.t) :=
  match items with
  | [] => Some products
  | item :: rest =>
      match Array_findIndex (λ p, Product.id p = CartLine.productId item) products with
      | None => None
      | Some productIndex =>
          update_stock now
            (alter (sell (CartLine.quantity item) now) productIndex products) rest
      end
  end.

Definition truthy_string (s : option string) : option string :=
  match s with
  | Some "" => None
  | _ => s
  end.

Definition newSale (sales : list Sale.t) (saleItems : list SaleItem.t)
    (subtotal discount tax : float) (req : SaleRequest.t) (user : User.t)
    (now : string) : Sale.t :=
  Sale.mk (Math_max_0 (Sale.id <$> sales) + 1) saleItems subtotal discount tax
    (subtotal - discount + tax)%float
    (SaleRequest.paymentMethod req)
    (default "Walk-in Customer" (truthy_string (SaleRequest.customerName req)))
    (User.id user) (User.username user) now.

(** The handler: the new state of the data files and the response. *)
Definition post_sales (faults : Faults) (now : string) (user : User.t)
    (req : SaleRequest.t) (d : Disk) : Disk * Response :=
  if negb (validationResult_isEmpty req) then (d, mkResponse 400 Errors) else
  let products := products_json d in
  let sales := sales_json d in
  let items := SaleRequest.items req in
  let discount := default 0%float (SaleRequest.discount req) in
  let tax := default 0%float (SaleRequest.tax req) in
  match price_items products items 0%float [] with
  | inl response => (d, response)
  | inr (subtotal, saleItems) =>
      let sale := newSale sales saleItems subtotal discount tax req user now in
      match update_stock now products items with
      | None => (d, server_error)
      | Some products' =>
          let sales' := sales ++ [sale] in
          match writeDataFile (products_write_throws faults) (ProductsFile products') d with
          | None => (d, server_error)
          | Some d1 =>
              match writeDataFile (sales_write_throws faults) (SalesFile sales') d1 with
              | None => (d1, server_error)
              | Some d2 => (d2, mkResponse 201 (SaleBody sale))
              end
          end
      end
  end.

(** The stock of the product that [products.find(p => p.id === id)] returns. *)
Definition stock_of (id : Z) (products : list Product.t) : option Z :=
  Product.stock <$> Array_find (λ p, Product.id p = id) products.

(** ** The Billing page *)

Module Billing.

(** [addToCart]; a toast leaves the cart as it is. *)
Definition addToCart (product : Product.t) (cart : list SaleItem.t) : list SaleItem.t :=
  match Array_find (λ item, SaleItem.productId item = Product.id product) cart with
  | Some existingItem =>
      if Product.stock product <=? SaleItem.quantity existingItem then cart
      else
        (λ item,
           if decide (SaleItem.productId item = Product.id product) then
             SaleItem.mk (SaleItem.productId item) (SaleItem.productName item)
               (SaleItem.sku item) (SaleItem.price item) (SaleItem.quantity item + 1)
               (num (SaleItem.quantity item + 1) * SaleItem.price item)%float
           else item) <$> cart
  | None =>
      if Product.stock product <=? 0 then cart
      else cart ++ [SaleItem.mk (Product.id product) (Product.name product)
                      (Product.sku product) (Product.price product) 1
                      (Product.price product)]
  end.

Definition subtotal (cart : list SaleItem.t) : float :=
  fold_left (λ sum item, (sum + SaleItem.total item)%float) cart 0%float.

Definition discountAmount (cart : list SaleItem.t) (discountPercent : float) : float :=
  (subtotal cart * or_zero discountPercent / 100)%float.

Definition taxableAmount (cart : list SaleItem.t) (discountPercent : float) : float :=
  (subtotal cart - discountAmount cart discountPercent)%float.

Definition taxAmount (cart : list SaleItem.t) (discountPercent taxPercent : float) : float :=
  (taxableAmount cart discountPercent * or_zero taxPercent / 100)%float.

Definition total (cart : list SaleItem.t) (discountPercent taxPercent : float) : float :=
  (taxableAmount cart discountPercent + taxAmount cart discountPercent taxPercent)%float.

(** [onSubmit]: the request handed to [salesAPI.create]; [None] is the
    toast 'Cart is empty', after which nothing is sent. *)
Definition onSubmit (cart : list SaleItem.t) (customerName paymentMethod : string)
    (discountPercent taxPercent : float) : option SaleRequest.t :=
  match cart with
  | [] => None
  | _ =>
      Some (SaleRequest.mk
        ((λ item, CartLine.mk (SaleItem.productId item) (SaleItem.quantity item)) <$> cart)
        paymentMethod
        (Some (default "Walk-in Customer" (truthy_string (Some customerName))))
        (Some (discountAmount cart discountPercent))
        (Some (taxAmount cart discountPercent taxPercent)))
  end.

End Billing.

(** ** JavaScript objects and sorting *)

(** [Array.prototype.sort(cmp)]: the stable sort (ECMAScript 2019), here by
    insertion from the right; [x] goes before [y] unless [cmp x y > 0]. *)
Section Sort.
Context {A : Type} (cmp : A → A → Z).

Fixpoint sort_insert (x : A) (l : list A) : list A :=
  match l with
  | [] => [x]
  | y :: r => if cmp x y <=? 0 then x :: l else y :: sort_insert x r
  end.

Definition Array_sort (l : list A) : list A := foldr sort_insert [] l.
End Sort.

(** An object whose property names are integers, such as [productSales]: the
    properties in creation order. *)
Section JsObject.
Context {V : Type}.

(** [o[k]]: the value of the property named [k], if there is one. *)
Fixpoint obj_get (k : Z) (o : list (Z * V)) : option V :=
  match o with
  | [] => None
  | kv :: rest => if decide (kv.1 = k) then Some kv.2 else obj_get k rest
  end.

(** A property created by assignment goes last. *)
Definition obj_create (k : Z) (v : V) (o : list (Z * V)) : list (Z * V) :=
  o ++ [(k, v)].

(** Mutation of the value held under [k]. *)
Definition obj_mutate (f : V → V) (k : Z) (o : list (Z * V)) : list (Z * V) :=
  (λ kv, if decide (kv.1 = k) then (kv.1, f kv.2) else kv) <$> o.

(** Names that are array indices ([0 .. 2^32 - 2]) are enumerated first, in
    ascending order; the other names follow in creation order. *)
Definition is_array_index (k : Z) : bool := (0 <=? k) && (k <? 2 ^ 32 - 1).

Definition Object_entries (o : list (Z * V)) : list (Z * V) :=
  Array_sort (λ a b, a.1 - b.1) (filter (λ kv, is_array_index kv.1) o)
  ++ filter (λ kv, negb (is_array_index kv.1)) o.
End JsObject.

(** ** GET /api/analytics/sales *)

(** [sales.forEach(sale => sale.items.forEach(item => ...))] as a state
    transformer. *)
Definition forEach_item {S : Type} (f : S → SaleItem.t → S)
    (sales : list Sale.t) (s : S) : S :=
  fold_left (λ s sale, fold_left f (Sale.items sale) s) sales s.

(** [(salesByCategory[name] || 0)]. *)
Definition get_or_zero (m : gmap string float) (name : string) : float :=
  match m !! name with
  | None => 0%float
  | Some x => or_zero x
  end.

Definition salesByCategory_item (products : list Product.t)
    (categories : list Category.t) (salesByCategory : gmap string float)
    (item : SaleItem.t) : gmap string float :=
  match Array_find (λ p, Product.id p = SaleItem.productId item) products with
  | None => salesByCategory
  | Some product =>
      match Array_find (λ c, Category.id c = Product.categoryId product) categories with
      | None => salesByCategory
      | Some category =>
          <[Category.name category :=
              (get_or_zero salesByCategory (Category.name category)
               + SaleItem.total item)%float]> salesByCategory
      end
  end.

Definition productSales_item (productSales : list (Z * ProductSales.t))
    (item : SaleItem.t) : list (Z * ProductSales.t) :=
  match obj_get (SaleItem.productId item) productSales with
  | Some _ =>
      obj_mutate
        (λ data, ProductSales.mk (ProductSales.productName data)
                   (ProductSales.quantity data + SaleItem.quantity item)
                   (ProductSales.total data + SaleItem.total item)%float)
        (SaleItem.productId item) productSales
  | None =>
      obj_create (SaleItem.productId item)
        (ProductSales.mk (SaleItem.productName item) (SaleItem.quantity item)
           (SaleItem.total item))
        productSales
  end.

Definition productSales_of (filteredSales : list Sale.t) : list (Z * ProductSales.t) :=
  forEach_item productSales_item filteredSales [].

Definition topProducts_of (filteredSales : list Sale.t) : list TopProduct.t :=
  (λ kv, TopProduct.mk kv.1 (ProductSales.productName kv.2)
           (ProductSales.quantity kv.2) (ProductSales.total kv.2))
  <$> take 10
        (Array_sort (λ a b, ProductSales.quantity b.2 - ProductSales.quantity a.2)
           (Object_entries (productSales_of filteredSales))).

Section Analytics.
(** The time value of [new Date(s)], in milliseconds; [None] is an invalid
    date, whose comparisons are all false. *)
Variable new_Date : string → option Z.

Definition date_le (a b : option Z) : bool :=
  match a, b with
  | Some x, Some y => x <=? y
  | _, _ => false
  end.

(** [req.query.startDate && req.query.endDate] selects the filter. *)
Definition filteredSales_of (startDate endDate : option string)
    (sales : list Sale.t) : list Sale.t :=
  match truthy_string startDate, truthy_string endDate with
  | Some startDate, Some endDate =>
      filter
        (λ sale,
           let saleDate := new_Date (Sale.createdAt sale) in
           date_le (new_Date startDate) saleDate
           && date_le saleDate (new_Date endDate))
        sales
  | _, _ => sales
  end.

Definition analytics (startDate endDate : option string) (d : Disk)
    : AnalyticsResult.t :=
  let sales := sales_json d in
  let products := products_json d in
  let categories := categories_json d in
  let filteredSales := filteredSales_of startDate endDate sales in
  AnalyticsResult.mk
    (fold_left (λ sum sale, (sum + Sale.total sale)%float) filteredSales 0%float)
    (length filteredSales)
    (forEach_item (salesByCategory_item products categories) filteredSales ∅)
    (topProducts_of filteredSales).

(** The handler: nothing in its body throws, so the [catch] branch is
    never taken. *)
Definition get_analytics_sales (startDate endDate : option string) (d : Disk)
    : Response :=
  mkResponse 200 (AnalyticsBody (analytics startDate endDate d)).
End Analytics.

(** * The catalog routes, the dashboard and the cart *)

(** ** Answers of the other routes *)

Inductive Reply (A : Type) :=
  | ReplyErrors                                  (* 400 { errors: errors.array() } *)
  | ReplyMessage (status : Z) (message : string) (* { message } *)
  | ReplyJson (status : Z) (value : A).
Arguments ReplyErrors {A}.
Arguments ReplyMessage {A} status message.
Arguments ReplyJson {A} status value.

Definition reply_status {A} (reply : Reply A) : Z :=
  match reply with
  | ReplyErrors => 400
  | ReplyMessage status _ => status
  | ReplyJson status _ => status
  end.

Definition reply_server_error {A} : Reply A := ReplyMessage 500 "Server error".

(** [requireRole(roles)]: the route goes on only for a role of the list. *)
Definition requireRole {A} (roles : list string) (user : User.t)
    (next : Disk → Disk * Reply A) (d : Disk) : Disk * Reply A :=
  if decide (User.role user ∈ roles) then next d
  else (d, ReplyMessage 403 "Insufficient permissions").

(** ** Product routes *)

(** One element of the answer of [GET /api/products]: the product and its
    [categoryName]. *)
Module ProductRow.
Record t := mk { product : Product.t; categoryName : string }.
End ProductRow.

(** [GET /api/products]. *)
Definition get_products (d : Disk) : list ProductRow.t :=
  (λ product,
     ProductRow.mk product
       match Array_find (λ c, Category.id c = Product.categoryId product)
               (categories_json d) with
       | Some category => Category.name category
       | None => "Unknown"
       end)
  <$> products_json d.

(** [req.body] of [POST /api/products] and [PUT /api/products/:id]. *)
Module ProductRequest.
Record t := mk {
  name : string;
  sku : string;
  categoryId : Z;
  price : float;
  stock : Z;
  reorderPoint : Z;
  description : option string
}.
End ProductRequest.

(** The validators of both routes: [notEmpty], [isFloat({ min: 0 })],
    [isInt({ min: 0 })]. *)
Definition product_validationResult_isEmpty (req : ProductRequest.t) : bool :=
  negb (String.eqb (ProductRequest.name req) "")
  && negb (String.eqb (ProductRequest.sku req) "")
  && float_min_0 (Some (ProductRequest.price req))
  && (0 <=? ProductRequest.stock req)
  && (0 <=? ProductRequest.reorderPoint req).

Definition newProduct (products : list Product.t) (req : ProductRequest.t)
    (now : string) : Product.t :=
  Product.mk (Math_max_0 (Product.id <$> products) + 1)
    (ProductRequest.name req) (ProductRequest.sku req) (ProductRequest.categoryId req)
    (ProductRequest.price req) (ProductRequest.stock req)
    (ProductRequest.reorderPoint req)
    (default "" (truthy_string (ProductRequest.description req))) now.

(** [POST /api/products], after the two middlewares. *)
Definition post_products (throws : bool) (now : string) (req : ProductRequest.t)
    (d : Disk) : Disk * Reply Product.t :=
  if negb (product_validationResult_isEmpty req) then (d, ReplyErrors) else
  let products := products_json d in
  match Array_find (λ p, Product.sku p = ProductRequest.sku req) products with
  | Some _ => (d, ReplyMessage 400 "SKU already exists")
  | None =>
      let product := newProduct products req now in
      match writeDataFile throws (ProductsFile (products ++ [product])) d with
      | None => (d, reply_server_error)
      | Some d' => (d', ReplyJson 201 product)
      end
  end.

(** [{ ...products[productIndex], name, sku, ... }]: the id stays. *)
Definition updatedProduct (old : Product.t) (req : ProductRequest.t)
    (now : string) : Product.t :=
  Product.mk (Product.id old)
    (ProductRequest.name req) (ProductRequest.sku req) (ProductRequest.categoryId req)
    (ProductRequest.price req) (ProductRequest.stock req)
    (ProductRequest.reorderPoint req)
    (default (Product.description old) (truthy_string (ProductRequest.description req)))
    now.

(** [PUT /api/products/:id]; [productId] is [parseInt(req.params.id)]. *)
Definition put_products (throws : bool) (now : string) (productId : Z)
    (req : ProductRequest.t) (d : Disk) : Disk * Reply Product.t :=
  if negb (product_validationResult_isEmpty req) then (d, ReplyErrors) else
  let products := products_json d in
  match list_find (λ p, Product.id p = productId) products with
  | None => (d, ReplyMessage 404 "Product not found")
  | Some (productIndex, old) =>
      match Array_find (λ p, Product.sku p = ProductRequest.sku req
                             ∧ Product.id p ≠ productId) products with
      | Some _ => (d, ReplyMessage 400 "SKU already exists")
      | None =>
          let product := updatedProduct old req now in
          match writeDataFile throws
                  (ProductsFile (<[productIndex := product]> products)) d with
          | None => (d, reply_server_error)
          | Some d' => (d', ReplyJson 200 product)
          end
      end
  end.

(** [DELETE /api/products/:id]. *)
Definition delete_products (throws : bool) (productId : Z) (d : Disk)
    : Disk * Reply Product.t :=
  let products := products_json d in
  let filteredProducts := filter (λ p, Product.id p ≠ productId) products in
  if decide (length filteredProducts = length products) then
    (d, ReplyMessage 404 "Product not found")
  else
    match writeDataFile throws (ProductsFile filteredProducts) d with
    | None => (d, reply_server_error)
    | Some d' => (d', ReplyMessage 200 "Product deleted successfully")
    end.

(** ** Category routes *)

(** [writeDataFile('categories.json', data)]. *)
Definition writeDataFile_categories (throws : bool) (data : list Category.t)
    (d : Disk) : option Disk :=
  if throws then None else Some (mkDisk (products_json d) data (sales_json d)).

Section CategoryRoutes.
(** [String.prototype.toLowerCase]. *)
Variable toLowerCase : string → string.

Definition newCategory (categories : list Category.t) (name : string)
    (description : option string) (now : string) : Category.t :=
  Category.mk (Math_max_0 (Category.id <$> categories) + 1) name
    (default "" (truthy_string description)) "active" now.

(** [POST /api/categories], after the two middlewares. *)
Definition post_categories (throws : bool) (now : string) (name : string)
    (description : option string) (d : Disk) : Disk * Reply Category.t :=
  if String.eqb name "" then (d, ReplyErrors) else
  let categories := categories_json d in
  match Array_find (λ c, toLowerCase (Category.name c) = toLowerCase name) categories with
  | Some _ => (d, ReplyMessage 400 "Category already exists")
  | None =>
      let category := newCategory categories name description now in
      match writeDataFile_categories throws (categories ++ [category]) d with
      | None => (d, reply_server_error)
      | Some d' => (d', ReplyJson 201 category)
      end
  end.
End CategoryRoutes.

(** [DELETE /api/categories/:id]. *)
Definition delete_categories (throws : bool) (categoryId : Z) (d : Disk)
    : Disk * Reply Category.t :=
  let categories := categories_json d in
  let products := products_json d in
  if decide (Exists (λ p, Product.categoryId p = categoryId) products) then
    (d, ReplyMessage 400 "Cannot delete category with existing products")
  else
    let filteredCategories := filter (λ c, Category.id c ≠ categoryId) categories in
    if decide (length filteredCategories = length categories) then
      (d, ReplyMessage 404 "Category not found")
    else
      match writeDataFile_categories throws filteredCategories d with
      | None => (d, reply_server_error)
      | Some d' => (d', ReplyMessage 200 "Category deleted successfully")
      end.

(** ** GET /api/dashboard/stats *)

Module DashboardStats.
Record t := mk {
  totalProducts : nat;
  totalCategories : nat;
  lowStockCount : nat;
  totalSales : float;
  recentSales : list Sale.t;
  lowStockProducts : list Product.t
}.
End DashboardStats.

Section Dashboard.
Variable new_Date : string → option Z.

(** [new Date(b.createdAt) - new Date(a.createdAt)]; a [NaN] returned by a
    comparator counts as 0.  With an invalid date in the history the
    comparator is not consistent and the order of [sort] is left to the
    engine: the model is the source's for histories of valid dates. *)
Definition newest_first (a b : Sale.t) : Z :=
  match new_Date (Sale.createdAt b), new_Date (Sale.createdAt a) with
  | Some tb, Some ta => tb - ta
  | _, _ => 0
  end.

Definition dashboard_stats (d : Disk) : DashboardStats.t :=
  let products := products_json d in
  let categories := categories_json d in
  let sales := sales_json d in
  let lowStockProducts :=
    filter (λ p, Product.stock p ≤ Product.reorderPoint p) products in
  DashboardStats.mk
    (length products)
    (length (filter (λ c, Category.status c = "active") categories))
    (length lowStockProducts)
    (fold_left (λ sum sale, (sum + Sale.total sale)%float) sales 0%float)
    (take 10 (Array_sort newest_first sales))
    (take 5 lowStockProducts).
End Dashboard.

(** ** The cart of the Billing page *)

Module BillingCart.

Definition with_quantity (item : SaleItem.t) (quantity : Z) : SaleItem.t :=
  SaleItem.mk (SaleItem.productId item) (SaleItem.productName item)
    (SaleItem.sku item) (SaleItem.price item) quantity
    (num quantity * SaleItem.price item)%float.

(** [updateQuantity]; a toast leaves the line as it is. *)
Definition updateQuantity (productsData : list Product.t) (productId change : Z)
    (cart : list SaleItem.t) : list SaleItem.t :=
  match Array_find (λ p, Product.id p = productId) productsData with
  | None => cart
  | Some product =>
      (λ item,
         if decide (SaleItem.productId item = productId) then
           let newQuantity := SaleItem.quantity item + change in
           if newQuantity <=? 0 then item
           else if Product.stock product <? newQuantity then item
           else with_quantity item newQuantity
         else item) <$> cart
  end.

(** [setQuantity]. *)
Definition setQuantity (productsData : list Product.t) (productId quantity : Z)
    (cart : list SaleItem.t) : list SaleItem.t :=
  match Array_find (λ p, Product.id p = productId) productsData with
  | None => cart
  | Some product =>
      if quantity <=? 0 then cart
      else if Product.stock product <? quantity then cart
      else
        (λ item,
           if decide (SaleItem.productId item = productId)
           then with_quantity item quantity else item) <$> cart
  end.

(** [removeFromCart]. *)
Definition removeFromCart (productId : Z) (cart : list SaleItem.t) : list SaleItem.t :=
  filter (λ item, SaleItem.productId item ≠ productId) cart.

(** What the cashier does to the cart. *)
Inductive action :=
  | AddToCart (product : Product.t)
  | UpdateQuantity (productId change : Z)
  | SetQuantity (productId quantity : Z)
  | RemoveFromCart (productId : Z).

Definition step (productsData : list Product.t) (cart : list SaleItem.t)
    (a : action) : list SaleItem.t :=
  match a with
  | AddToCart product => Billing.addToCart product cart
  | UpdateQuantity productId change => updateQuantity productsData productId change cart
  | SetQuantity productId quantity => setQuantity productsData productId quantity cart
  | RemoveFromCart productId => removeFromCart productId cart
  end.

(** The cart after a list of actions, from the empty cart. *)
Definition run (productsData : list Product.t) (actions : list action) : list SaleItem.t :=
  fold_left (step productsData) actions [].

End BillingCart.

(** ** The argument limit of the engine *)

(** [Math.max(...xs, 0)] spreads the array into the arguments of one call: as
    many arguments as [xs] has elements, and one more.  An engine takes a
    bounded number of arguments in a call, here [argument_limit], and throws a
    [RangeError] beyond it, which the [catch] of the handler answers with 500.
    [Math_max_0] is the call in an engine without such a bound. *)
Definition Math_max_spread (argument_limit : Z) (xs : list Z) : option Z :=
  if Z.of_nat (length xs) <? argument_limit then Some (Math_max_0 xs) else None.

(** [POST /api/sales] in an engine with that limit: the spread of the sale
    ids comes after the first loop and before anything is written. *)
Definition post_sales_within (argument_limit : Z) (faults : Faults) (now : string)
    (user : User.t) (req : SaleRequest.t) (d : Disk) : Disk * Response :=
  if negb (validationResult_isEmpty req) then (d, mkResponse 400 Errors) else
  match price_items (products_json d) (SaleRequest.items req) 0%float [] with
  | inl response => (d, response)
  | inr _ =>
      match Math_max_spread argument_limit (Sale.id <$> sales_json d) with
      | None => (d, server_error)
      | Some _ => post_sales faults now user req d
      end
  end.

(** [POST /api/products] in an engine with that limit: the spread of the
    product ids comes after the check of the SKU. *)
Definition post_products_within (argument_limit : Z) (throws : bool) (now : string)
    (req : ProductRequest.t) (d : Disk) : Disk * Reply Product.t :=
  if negb (product_validationResult_isEmpty req) then (d, ReplyErrors) else
  match Array_find (λ p, Product.sku p = ProductRequest.sku req) (products_json d) with
  | Some _ => (d, ReplyMessage 400 "SKU already exists")
  | None =>
      match Math_max_spread argument_limit (Product.id <$> products_json d) with
      | None => (d, reply_server_error)
      | Some _ => post_products throws now req d
      end
  end.

(** * Vocabulary of the properties *)

(** The order of the result of a sort: by rank, and among elements of one
    rank by the order [R] in which the argument had them. *)
Definition sorted_then {A} (rank : A → Z) (R : A → A → Prop) (a b : A) : Prop :=
  rank a < rank b ∨ (rank a = rank b ∧ R a b).

(** Every line that the first loop accepts names a product that [find]
    returns, with enough stock for that line alone. *)
Definition line_in_stock (products : list Product.t) (item : CartLine.t) : Prop :=
  ∃ product,
    Array_find (λ p, Product.id p = CartLine.productId item) products = Some product
    ∧ CartLine.quantity item ≤ Product.stock product.

(** The five ways in which the handler returns. *)
Inductive outcome (faults : Faults) (now : string) (user : User.t)
    (req : SaleRequest.t) (d : Disk) : Disk * Response → Prop :=
  | rejected response :
      status response = 400 →
      outcome faults now user req d (d, response)
  | type_error :
      update_stock now (products_json d) (SaleRequest.items req) = None →
      outcome faults now user req d (d, server_error)
  | products_not_written :
      products_write_throws faults = true →
      outcome faults now user req d (d, server_error)
  | sale_not_written products' priced :
      products_write_throws faults = false →
      sales_write_throws faults = true →
      validationResult_isEmpty req = true →
      price_items (products_json d) (SaleRequest.items req) 0%float [] = inr priced →
      update_stock now (products_json d) (SaleRequest.items req) = Some products' →
      outcome faults now user req d (store (ProductsFile products') d, server_error)
  | committed products' subtotal saleItems :
      products_write_throws faults = false →
      sales_write_throws faults = false →
      validationResult_isEmpty req = true →
      price_items (products_json d) (SaleRequest.items req) 0%float [] = inr (subtotal, saleItems) →
      update_stock now (products_json d) (SaleRequest.items req) = Some products' →
      let sale :=
        newSale (sales_json d) saleItems subtotal
          (default 0%float (SaleRequest.discount req))
          (default 0%float (SaleRequest.tax req)) req user now in
      outcome faults now user req d
        (mkDisk products' (categories_json d) (sales_json d ++ [sale]),
         mkResponse 201 (SaleBody sale)).

Definition stock_nonneg (products : list Product.t) : Prop :=
  Forall (λ p, 0 ≤ Product.stock p) products.

(** The quantity that a cart requests of one product, over all its lines. *)
Definition requested (id : Z) (items : list CartLine.t) : Z :=
  foldr (λ item acc,
           if decide (CartLine.productId item = id)
           then CartLine.quantity item + acc else acc) 0 items.

(** Identifiers in a history written by the route alone: from 1 up,
    strictly increasing. *)
Definition ids_increasing (sales : list Sale.t) : Prop :=
  StronglySorted Z.lt (Sale.id <$> sales) ∧ Forall (λ i, 1 ≤ i) (Sale.id <$> sales).

(** The order in which [Object.entries] lists two property names, as far as
    the names decide it: array indices ascending, and before any other
    name. *)
Definition entries_order (a b : Z) : Prop :=
  match is_array_index a, is_array_index b with
  | true, true => a < b
  | true, false => True
  | false, true => False
  | false, false => True
  end.

(** The line items that the two nested [forEach] visit, in order. *)
Definition all_items (sales : list Sale.t) : list SaleItem.t :=
  concat (Sale.items <$> sales).

(** The line items of one product id. *)
Definition lines_of (id : Z) (items : list SaleItem.t) : list SaleItem.t :=
  filter (λ item, SaleItem.productId item = id) items.

(** What the lines of one product id add up to: the name on the first line,
    the sum of the quantities, the totals added from the first line on. *)
Definition accumulated (id : Z) (items : list SaleItem.t) : option ProductSales.t :=
  match lines_of id items with
  | [] => None
  | first :: more =>
      Some (ProductSales.mk (SaleItem.productName first)
              (foldr Z.add 0 (SaleItem.quantity <$> first :: more))
              (fold_left (λ total item, (total + SaleItem.total item)%float) more
                 (SaleItem.total first)))
  end.

(** The order of [topProducts]: more units first; among products with the
    same units, the order of [Object.entries]. *)
Definition ranks_before (a b : TopProduct.t) : Prop :=
  TopProduct.quantity b < TopProduct.quantity a
  ∨ (TopProduct.quantity a = TopProduct.quantity b
     ∧ entries_order (TopProduct.productId a) (TopProduct.productId b)).

(** Both bounds and the date of the sale are valid dates, and the date of the
    sale is between the bounds, ends included. *)
Definition in_bounds (startDate endDate createdAt : option Z) : Prop :=
  match startDate, createdAt, endDate with
  | Some lo, Some t, Some hi => lo ≤ t ∧ t ≤ hi
  | _, _, _ => False
  end.

#[global] Instance in_bounds_dec startDate endDate createdAt :
  Decision (in_bounds startDate endDate createdAt).
Proof. destruct startDate, endDate, createdAt; simpl; apply _. Defined.

(** The sum of a list of doubles, added from the left starting at 0, the way
    [reduce] does. *)
Definition sum_from_left (xs : list float) : float :=
  fold_left PrimFloat.add xs 0%float.

(** The product of a line item is still on file. *)
Definition resolves (products : list Product.t) (item : SaleItem.t) : Prop :=
  is_Some (Array_find (λ p, Product.id p = SaleItem.productId item) products).

(** A sale without the line items whose product is gone. *)
Definition without_dangling (products : list Product.t) (sale : Sale.t) : Sale.t :=
  Sale.mk (Sale.id sale) (filter (resolves products) (Sale.items sale))
    (Sale.subtotal sale) (Sale.discount sale) (Sale.tax sale) (Sale.total sale)
    (Sale.paymentMethod sale) (Sale.customerName sale) (Sale.cashierId sale)
    (Sale.cashierName sale) (Sale.createdAt sale).

(** ** Scenarios *)

(** A catalog of one product, priced 10.00. *)
Definition product1 (stock : Z) : Product.t :=
  Product.mk 1 "Widget" "W001" 1 10%float stock 0 "" "2024-01-01T00:00:00.000Z".

Definition disk1 (stock : Z) : Disk := mkDisk [product1 stock] [] [].

Definition cashier : User.t := User.mk 2 "cashier" "CASHIER".

Definition cart_request (items : list CartLine.t) : SaleRequest.t :=
  SaleRequest.mk items "cash" None None None.

(** The time values of the dates used below, in milliseconds. *)
Definition scenario_Date (s : string) : option Z :=
  if String.eqb s "2024-01-01" then Some 1704067200000
  else if String.eqb s "2024-01-31" then Some 1706659200000
  else if String.eqb s "2024-01-15T12:00:00.000Z" then Some 1705320000000
  else if String.eqb s "2024-01-31T00:00:00.000Z" then Some 1706659200000
  else if String.eqb s "2024-02-01T09:30:00.000Z" then Some 1706779800000
  else None.

Definition scenario_sale (id : Z) (items : list SaleItem.t) (total : float)
    (createdAt : string) : Sale.t :=
  Sale.mk id items total 0 0 total "cash" "Walk-in Customer" 2 "cashier" createdAt.

Definition scenario_history : list Sale.t :=
  [scenario_sale 1 [SaleItem.mk 1 "Phone" "SP001" 25%float 2 50%float] 50
     "2024-01-15T12:00:00.000Z";
   scenario_sale 2 [SaleItem.mk 3 "Shirt" "TS001" 10%float 2 20%float] 20
     "2024-01-31T00:00:00.000Z";
   scenario_sale 3 [SaleItem.mk 7 "Gone" "XX001" 5%float 1 5%float] 5
     "2024-02-01T09:30:00.000Z"].

Definition scenario_disk : Disk :=
  mkDisk
    [Product.mk 1 "Phone" "SP001" 1 25%float 23 10 "" "";
     Product.mk 3 "Shirt" "TS001" 2 10%float 98 20 "" ""]
    [Category.mk 1 "Electronics" "" "active" ""; Category.mk 2 "Clothing" "" "active" ""]
    scenario_history.

(** ** Vocabulary of the catalog, dashboard and cart properties *)

(** A line of the cart and the line item that the first loop makes of it. *)
Definition line_priced (products : list Product.t) (line : CartLine.t)
    (item : SaleItem.t) : Prop :=
  ∃ product,
    Array_find (λ p, Product.id p = CartLine.productId line) products = Some product
    ∧ item = SaleItem.mk (Product.id product) (Product.name product)
               (Product.sku product) (Product.price product) (CartLine.quantity line)
               (Product.price product * num (CartLine.quantity line))%float.

(** What a sale leaves of a product: everything but [stock] and
    [lastUpdated]. *)
Definition catalog_data (p : Product.t)
    : Z * string * string * Z * float * Z * string :=
  (Product.id p, Product.name p, Product.sku p, Product.categoryId p,
   Product.price p, Product.reorderPoint p, Product.description p).

(** Products with distinct ids and distinct SKUs. *)
Definition catalog_ok (products : list Product.t) : Prop :=
  NoDup (Product.id <$> products) ∧ NoDup (Product.sku <$> products).

(** A sale without the line items of one product id. *)
Definition without_product (productId : Z) (sale : Sale.t) : Sale.t :=
  Sale.mk (Sale.id sale)
    (filter (λ item, SaleItem.productId item ≠ productId) (Sale.items sale))
    (Sale.subtotal sale) (Sale.discount sale) (Sale.tax sale) (Sale.total sale)
    (Sale.paymentMethod sale) (Sale.customerName sale) (Sale.cashierId sale)
    (Sale.cashierName sale) (Sale.createdAt sale).

(** Category names that differ even when case is ignored. *)
Definition names_distinct (toLowerCase : string → string)
    (categories : list Category.t) : Prop :=
  NoDup ((λ c, toLowerCase (Category.name c)) <$> categories).

(** The time value of the date of a sale, for a valid date. *)
Definition sale_time (new_Date : string → option Z) (sale : Sale.t) : Z :=
  default 0 (new_Date (Sale.createdAt sale)).

(** A line of the cart names a product of [productsData] and asks for at
    least one unit and no more than its stock. *)
Definition cart_line_ok (productsData : list Product.t) (item : SaleItem.t) : Prop :=
  ∃ product,
    Array_find (λ p, Product.id p = SaleItem.productId item) productsData = Some product
    ∧ 1 ≤ SaleItem.quantity item ≤ Product.stock product.

(** The products that the page adds to the cart are those it was given: the
    one that [find] returns for its id. *)
Definition adds_listed (productsData : list Product.t) (a : BillingCart.action) : Prop :=
  match a with
  | BillingCart.AddToCart product =>
      Array_find (λ p, Product.id p = Product.id product) productsData = Some product
  | _ => True
  end.

(** The calls that change the data files, with the middlewares of their
    routes. *)
Inductive Call :=
  | PostSales (faults : Faults) (req : SaleRequest.t)
  | PostProducts (throws : bool) (req : ProductRequest.t)
  | PutProducts (throws : bool) (productId : Z) (req : ProductRequest.t)
  | DeleteProducts (throws : bool) (productId : Z)
  | PostCategories (throws : bool) (name : string) (description : option string)
  | DeleteCategories (throws : bool) (categoryId : Z).

(** The data files after one call by an authenticated user. *)
Definition serve (toLowerCase : string → string) (d : Disk)
    (request : string * User.t * Call) : Disk :=
  let '(now, user, call) := request in
  match call with
  | PostSales faults req => (post_sales faults now user req d).1
  | PostProducts throws req =>
      (requireRole ["ADMIN"] user (post_products throws now req) d).1
  | PutProducts throws productId req =>
      (requireRole ["ADMIN"] user (put_products throws now productId req) d).1
  | DeleteProducts throws productId =>
      (requireRole ["ADMIN"] user (delete_products throws productId) d).1
  | PostCategories throws name description =>
      (requireRole ["ADMIN"] user
         (post_categories toLowerCase throws now name description) d).1
  | DeleteCategories throws categoryId =>
      (requireRole ["ADMIN"] user (delete_categories throws categoryId) d).1
  end.

(** The data files after a number of calls, whatever their outcome and in
    any order: a call of one of the routes of [serve], by any user, or a
    change that leaves [sales.json] as it is (an edit of a category, say). *)
Inductive commits : Disk → Disk → Prop :=
  | commits_none d : commits d d
  | commits_call toLowerCase d d1 request :
      commits d d1 →
      commits d (serve toLowerCase d1 request)
  | commits_other d d1 d2 :
      commits d d1 →
      sales_json d2 = sales_json d1 →
      commits d d2.

(** [toLowerCase] on the letters A to Z, for the scenarios. *)
Fixpoint ascii_toLowerCase (s : string) : string :=
  match s with
  | EmptyString => EmptyString
  | String c rest =>
      let n := Ascii.nat_of_ascii c in
      String
        (if (65 <=? n)%nat && (n <=? 90)%nat then Ascii.ascii_of_nat (n + 32) else c)
        (ascii_toLowerCase rest)
  end.

(** A catalog of two products in two categories. *)
Definition catalog2 : Disk :=
  mkDisk
    [Product.mk 1 "Phone" "SP001" 1 25%float 3 10 "smart" "";
     Product.mk 2 "Shirt" "TS001" 2 10%float 98 20 "" ""]
    [Category.mk 1 "Electronics" "" "active" ""; Category.mk 2 "Clothing" "" "inactive" ""]
    [].

Definition product_request (name sku : string) (categoryId : Z) : ProductRequest.t :=
  ProductRequest.mk name sku categoryId 5%float 7 2 None.

Definition admin : User.t := User.mk 1 "admin" "ADMIN".

(** * Properties *)

(** ** The outcomes of a commit *)

Lemma price_items_rejects products items subtotal saleItems response :
  price_items products items subtotal saleItems = inl response →
  status response = 400.
Proof.
  revert subtotal saleItems.
  induction items as [|item rest IH]; intros subtotal saleItems; simpl; [done|].
  destruct (Array_find _ products) as [product|]; [|by intros [= <-]].
  destruct (Product.stock product <? CartLine.quantity item); [by intros [= <-]|].
  apply IH.
Qed.

Lemma price_items_accepts products items subtotal saleItems priced :
  price_items products items subtotal saleItems = inr priced →
  Forall (line_in_stock products) items.
Proof.
  revert subtotal saleItems.
  induction items as [|item rest IH]; intros subtotal saleItems; simpl; [by constructor|].
  destruct (Array_find _ products) as [product|] eqn:Hfind; [|done].
  destruct (Z.ltb_spec (Product.stock product) (CartLine.quantity item)); [done|].
  intros Hrest. constructor; [|by eapply IH].
  exists product. split; [done | lia].
Qed.

Lemma price_items_insufficient products before item rest product subtotal saleItems :
  Forall (line_in_stock products) before →
  Array_find (λ p, Product.id p = CartLine.productId item) products = Some product →
  Product.stock product < CartLine.quantity item →
  price_items products (before ++ item :: rest) subtotal saleItems
  = inl (mkResponse 400 (Message ("Insufficient stock for " +:+ Product.name product))).
Proof.
  intros Hbefore Hfind Hlt. revert subtotal saleItems.
  induction Hbefore as [|line before (p & Hp & Hle) _ IH]; intros subtotal saleItems; simpl.
  - rewrite Hfind. apply Z.ltb_lt in Hlt. by rewrite Hlt.
  - rewrite Hp. apply Z.ltb_ge in Hle. rewrite Hle. apply IH.
Qed.

Lemma post_sales_outcome faults now user req d :
  outcome faults now user req d (post_sales faults now user req d).
Proof.
  unfold post_sales.
  destruct (validationResult_isEmpty req) eqn:Hvalid; simpl; [|by constructor].
  destruct (price_items _ _ _ _) as [response|[subtotal saleItems]] eqn:Hprice.
  { constructor. by eapply price_items_rejects. }
  destruct (update_stock _ _ _) as [products'|] eqn:Hupdate; [|by constructor].
  destruct faults as [[] []]; simpl.
  - by apply products_not_written.
  - by apply products_not_written.
  - by eapply sale_not_written.
  - by eapply committed.
Qed.

(** An answer 400 leaves the data files as they are. *)
Lemma post_sales_rejected_unchanged faults now user req d d' response :
  post_sales faults now user req d = (d', response) →
  status response = 400 →
  d' = d.
Proof.
  intros Hpost Hstatus.
  pose proof (post_sales_outcome faults now user req d) as Hout.
  rewrite Hpost in Hout. by inversion Hout; subst.
Qed.

(** ** Stock levels *)

(** Selling a product does not move what [find] returns for another id. *)
Lemma list_find_sell_other (products : list Product.t) i quantity now id j p :
  (∀ x, products !! i = Some x → Product.id x ≠ id) →
  list_find (λ p, Product.id p = id) products = Some (j, p) →
  list_find (λ p, Product.id p = id) (alter (sell quantity now) i products) = Some (j, p).
Proof.
  intros Hother (Hj & Hid & Hmin)%list_find_Some.
  apply list_find_Some.
  assert (i ≠ j) as Hij by (intros ->; by eapply Hother).
  split_and!; [by rewrite list_lookup_alter_ne | done |].
  intros k y Hk Hlt.
  rewrite list_lookup_alter in Hk.
  destruct (decide (i = k)) as [->|]; [|by eapply Hmin].
  destruct (products !! k) as [x|] eqn:Hx; [|done].
  injection Hk as <-. simpl. by eapply Hother.
Qed.

Lemma line_in_stock_sell_other products i quantity now item :
  (∀ x, products !! i = Some x → Product.id x ≠ CartLine.productId item) →
  line_in_stock products item →
  line_in_stock (alter (sell quantity now) i products) item.
Proof.
  intros Hother (product & Hfind & Hle).
  exists product. split; [|done].
  unfold Array_find in *.
  destruct (list_find _ products) as [[j p]|] eqn:Hlf; [|done].
  injection Hfind as ->.
  by erewrite list_find_sell_other.
Qed.

(** The second loop on a cart whose lines name distinct products: it does
    not throw and no stock level goes below zero. *)
Lemma update_stock_distinct now items : ∀ products,
  NoDup (CartLine.productId <$> items) →
  stock_nonneg products →
  Forall (line_in_stock products) items →
  ∃ products',
    update_stock now products items = Some products' ∧ stock_nonneg products'.
Proof.
  induction items as [|item rest IH]; intros products Hnodup Hnonneg Hlines; simpl.
  { by exists products. }
  apply NoDup_cons in Hnodup as [Hfresh Hnodup].
  apply Forall_cons in Hlines as [(product & Hfind & Hle) Hlines].
  unfold Array_find in Hfind. unfold Array_findIndex.
  destruct (list_find _ products) as [[i p]|] eqn:Hlf; [|done].
  injection Hfind as ->. simpl.
  apply list_find_Some in Hlf as (Hi & Hid & _).
  apply IH; [done | |].
  - apply Forall_alter; [done|].
    intros x Hx _. rewrite Hi in Hx. injection Hx as <-. simpl. lia.
  - apply Forall_forall. intros item' Hin.
    apply line_in_stock_sell_other.
    + intros x Hx. rewrite Hi in Hx. injection Hx as <-.
      intros Heq. apply Hfresh. rewrite <- Hid, Heq.
      by apply list_elem_of_fmap_2.
    + by eapply Forall_forall in Hlines.
Qed.

(** A commit of a cart with distinct products keeps every stock level at or
    above zero, whatever its outcome. *)
Lemma post_sales_distinct_stock_nonneg faults now user req d :
  NoDup (CartLine.productId <$> SaleRequest.items req) →
  stock_nonneg (products_json d) →
  stock_nonneg (products_json (post_sales faults now user req d).1).
Proof.
  intros Hnodup Hnonneg.
  destruct (post_sales_outcome faults now user req d)
    as [response ?| ? | ? | products' priced ? ? ? Hprice Hupd
       | products' subtotal saleItems ? ? ? Hprice Hupd];
    simpl; try done.
  all: apply price_items_accepts in Hprice.
  all: destruct (update_stock_distinct now _ _ Hnodup Hnonneg Hprice) as (p2 & Hp2 & Hnn).
  all: by simplify_eq.
Qed.

Lemma stock_of_sell products i x quantity now id :
  list_find (λ p, Product.id p = id) products = Some (i, x) →
  ∀ id',
    stock_of id' (alter (sell quantity now) i products)
    = if decide (id' = id) then Some (Product.stock x - quantity)
      else stock_of id' products.
Proof.
  intros Hfind id'. unfold stock_of, Array_find.
  pose proof Hfind as (Hi & Hid & Hmin)%list_find_Some.
  destruct (decide (id' = id)) as [->|Hne].
  - assert (list_find (λ p, Product.id p = id) (alter (sell quantity now) i products)
            = Some (i, sell quantity now x)) as ->; [|done].
    apply list_find_Some. split_and!.
    + by rewrite list_lookup_alter, decide_True, Hi.
    + done.
    + intros k y Hk Hlt. rewrite list_lookup_alter_ne in Hk by lia. by eapply Hmin.
  - destruct (list_find (λ p, Product.id p = id') products) as [[j p]|] eqn:Hlf.
    + erewrite list_find_sell_other; [done| |done].
      intros y Hy. rewrite Hi in Hy. injection Hy as <-. congruence.
    + assert (list_find (λ p, Product.id p = id') (alter (sell quantity now) i products)
              = None) as ->; [|done].
      apply list_find_None. apply list_find_None in Hlf.
      apply Forall_alter; [done|]. by intros y _ Hy.
Qed.

(** The second loop subtracts from each product the whole quantity that the
    cart requests of it. *)
Lemma update_stock_requested now items : ∀ products,
  Forall (λ item, is_Some (stock_of (CartLine.productId item) products)) items →
  ∃ products',
    update_stock now products items = Some products'
    ∧ ∀ id, stock_of id products'
            = (λ stock, stock - requested id items) <$> stock_of id products.
Proof.
  induction items as [|item rest IH]; intros products Hfound; simpl.
  { exists products. split; [done|]. intros id.
    destruct (stock_of id products); simpl; f_equal; lia. }
  apply Forall_cons in Hfound as [[stock Hstock] Hfound].
  unfold stock_of, Array_find in Hstock. unfold Array_findIndex.
  destruct (list_find _ products) as [[i x]|] eqn:Hlf; [|done]. simpl.
  pose proof (stock_of_sell products i x (CartLine.quantity item) now _ Hlf) as Hsell.
  destruct (IH (alter (sell (CartLine.quantity item) now) i products))
    as (products' & Hupd & Hstocks).
  { apply Forall_forall. intros item' Hin. rewrite Hsell.
    case_decide; [done|]. by eapply Forall_forall in Hfound. }
  exists products'. split; [done|]. intros id.
  rewrite Hstocks, Hsell.
  destruct (decide (CartLine.productId item = id)) as [<-|Hne].
  - rewrite decide_True by done.
    unfold stock_of, Array_find. rewrite Hlf. simpl. f_equal. lia.
  - rewrite decide_False by done. done.
Qed.

Lemma line_in_stock_found products item :
  line_in_stock products item →
  is_Some (stock_of (CartLine.productId item) products).
Proof. intros (product & Hfind & _). unfold stock_of. by rewrite Hfind. Qed.

(** What a commit that answers 201 has written: each stock level less the
    aggregate request, with no comparison of the two. *)
Lemma post_sales_committed_stock faults now user req d d' sale id :
  post_sales faults now user req d = (d', mkResponse 201 (SaleBody sale)) →
  stock_of id (products_json d')
  = (λ stock, stock - requested id (SaleRequest.items req))
    <$> stock_of id (products_json d).
Proof.
  intros Hpost.
  pose proof (post_sales_outcome faults now user req d) as Hout.
  rewrite Hpost in Hout.
  inversion Hout as [| | | |products' subtotal saleItems ? ? ? Hprice Hupd]; subst.
  { done. }
  apply price_items_accepts in Hprice.
  destruct (update_stock_requested now (SaleRequest.items req) (products_json d))
    as (p2 & Hp2 & Hstocks).
  { eapply Forall_impl; [done|]. apply line_in_stock_found. }
  simplify_eq. simpl. apply Hstocks.
Qed.

(** ** Claims on the commit *)

(** C1 (the code departs from it).  The first loop compares each line with
    the stock on file, never the lines of one product together: with a stock
    of 5, a cart of two lines of 3 for product 1 is answered 201 and the stock
    written is -1.  The invariant [stock >= 0] and the [InsufficientStock]
    failure of an over-asking cart hold for carts of distinct products only
    ([post_sales_distinct_stock_nonneg], [post_sales_committed_stock]). *)
Theorem duplicate_lines_drive_stock_negative :
  let req := cart_request [CartLine.mk 1 3; CartLine.mk 1 3] in
  let result := post_sales no_faults "2024-06-01T10:00:00.000Z" cashier req (disk1 5) in
  stock_nonneg (products_json (disk1 5))
  ∧ stock_of 1 (products_json (disk1 5)) = Some 5
  ∧ requested 1 (SaleRequest.items req) = 6
  ∧ status result.2 = 201
  ∧ stock_of 1 (products_json result.1) = Some (-1)
  ∧ ¬ stock_nonneg (products_json result.1).
Proof.
  split_and!; try reflexivity.
  - repeat constructor. simpl. lia.
  - intros Hnonneg. vm_compute in Hnonneg.
    apply Forall_cons in Hnonneg as [Hneg _]. by apply Hneg.
Qed.

(** C2 (the code departs from it).  The route checks that [items] is an
    array, not that it has an element: a commit of an empty cart is answered
    201 and appends a sale without items, the products being left as they
    are.  The Billing page is where the empty cart is refused ('Cart is
    empty'), before any request is sent. *)
Theorem empty_cart_is_committed :
  (∀ now user req d,
     SaleRequest.items req = [] →
     validationResult_isEmpty req = true →
     ∃ sale,
       post_sales no_faults now user req d
       = (mkDisk (products_json d) (categories_json d) (sales_json d ++ [sale]),
          mkResponse 201 (SaleBody sale))
       ∧ Sale.items sale = []
       ∧ Sale.id sale = Math_max_0 (Sale.id <$> sales_json d) + 1)
  ∧ (∀ customerName paymentMethod discountPercent taxPercent,
       Billing.onSubmit [] customerName paymentMethod discountPercent taxPercent = None).
Proof.
  split; [|done].
  intros now user req d Hitems Hvalid.
  unfold post_sales. rewrite Hvalid, Hitems. simpl.
  eexists. split_and!; reflexivity.
Qed.

Lemma empty_cart_is_committed_witness :
  let result :=
    post_sales no_faults "2024-06-01T10:00:00.000Z" cashier (cart_request []) (disk1 5) in
  status result.2 = 201
  ∧ length (sales_json result.1) = 1%nat
  ∧ products_json result.1 = products_json (disk1 5).
Proof.
  destruct (proj1 empty_cart_is_committed "2024-06-01T10:00:00.000Z" cashier
              (cart_request []) (disk1 5) eq_refl eq_refl) as (sale & -> & _).
  split_and!; reflexivity.
Defined.




(** C4, as amended.  A commit with a line that asks for more than the stock
    of its product, the lines before it being in stock, is answered 400 with
    the message 'Insufficient stock for' followed by the name of the product,
    and nothing else: no product id, no requested and no available quantity.
    The data files are left as they are, so the stock stays (at 2 in the
    scenario). *)
Theorem insufficient_stock_response faults now user req d before item rest product :
  validationResult_isEmpty req = true →
  SaleRequest.items req = before ++ item :: rest →
  Forall (line_in_stock (products_json d)) before →
  Array_find (λ p, Product.id p = CartLine.productId item) (products_json d)
  = Some product →
  Product.stock product < CartLine.quantity item →
  post_sales faults now user req d
  = (d, mkResponse 400 (Message ("Insufficient stock for " +:+ Product.name product))).
Proof.
  intros Hvalid Hitems Hbefore Hfind Hlt.
  unfold post_sales. rewrite Hvalid, Hitems. simpl.
  by rewrite (price_items_insufficient _ _ _ _ product).
Qed.

Lemma insufficient_stock_response_witness :
  post_sales no_faults "2024-06-01T10:00:00.000Z" cashier
    (cart_request [CartLine.mk 1 3]) (disk1 2)
  = (disk1 2, mkResponse 400 (Message "Insufficient stock for Widget"))
  ∧ stock_of 1 (products_json (disk1 2)) = Some 2.
Proof.
  split; [|reflexivity].
  apply (insufficient_stock_response no_faults "2024-06-01T10:00:00.000Z" cashier
           (cart_request [CartLine.mk 1 3]) (disk1 2) [] (CartLine.mk 1 3) []
           (product1 2)).
  - reflexivity.
  - reflexivity.
  - constructor.
  - reflexivity.
  - simpl. lia.
Defined.

(** C4 as stated fails: the answer to the scenario (product 1, 3 requested,
    2 available) is also the answer to a commit of 7 of product 9 with none
    available, so no reading of the error gives back the product id, the
    requested quantity and the available quantity. *)
Lemma insufficient_stock_error_carries_no_amounts :
  let scenario_B :=
    post_sales no_faults "2024-06-01T10:00:00.000Z" cashier
      (cart_request [CartLine.mk 1 3]) (disk1 2) in
  let other :=
    post_sales no_faults "2024-06-01T10:00:00.000Z" cashier
      (cart_request [CartLine.mk 9 7])
      (mkDisk [Product.mk 9 "Widget" "W009" 1 10%float 0 0 "" ""] [] []) in
  ¬ ∃ carried : Response → Z * Z * Z,
      carried scenario_B.2 = (1, 3, 2) ∧ carried other.2 = (9, 7, 0).
Proof.
  intros scenario_B other (carried & HB & Hother).
  assert (scenario_B.2 = other.2) as Heq by reflexivity.
  rewrite Heq, Hother in HB. discriminate.
Qed.

(** C5.  Scenario A: three units of product 1 (price 10.00, stock 5) put in
    the cart of the Billing page, discount 10%, tax 5%.  The page shows
    subtotal 30, discount 3, taxable amount 27, tax 1.35 and total 28.35 (the
    doubles nearest to these decimals); the commit of the request it sends
    records the same subtotal, discount, tax and total and leaves a stock of
    2. *)
Theorem scenario_A_pricing_and_commit :
  let catalog := disk1 5 in
  let cart :=
    Billing.addToCart (product1 5)
      (Billing.addToCart (product1 5) (Billing.addToCart (product1 5) [])) in
  ((λ item, (SaleItem.productId item, SaleItem.quantity item)) <$> cart = [(1, 3)])
  ∧ Billing.subtotal cart = 30%float
  ∧ Billing.discountAmount cart 10 = 3%float
  ∧ Billing.taxableAmount cart 10 = 27%float
  ∧ Billing.taxAmount cart 10 5 = 1.35%float
  ∧ Billing.total cart 10 5 = 28.35%float
  ∧ ∃ req sale d',
      Billing.onSubmit cart "" "cash" 10 5 = Some req
      ∧ SaleRequest.items req = [CartLine.mk 1 3]
      ∧ post_sales no_faults "2024-06-01T10:00:00.000Z" cashier req catalog
        = (d', mkResponse 201 (SaleBody sale))
      ∧ Sale.subtotal sale = 30%float
      ∧ Sale.discount sale = 3%float
      ∧ Sale.tax sale = 1.35%float
      ∧ Sale.total sale = 28.35%float
      ∧ stock_of 1 (products_json catalog) = Some 5
      ∧ stock_of 1 (products_json d') = Some 2.
Proof.
  split_and!; try reflexivity.
  eexists _, _, _. split_and!; reflexivity.
Qed.

(** The formulas of the Billing page, for percentages that are not falsy. *)
Lemma billing_formulas cart discountPercent taxPercent :
  or_zero discountPercent = discountPercent →
  or_zero taxPercent = taxPercent →
  Billing.discountAmount cart discountPercent
  = (Billing.subtotal cart * discountPercent / 100)%float
  ∧ Billing.taxableAmount cart discountPercent
    = (Billing.subtotal cart - Billing.discountAmount cart discountPercent)%float
  ∧ Billing.taxAmount cart discountPercent taxPercent
    = (Billing.taxableAmount cart discountPercent * taxPercent / 100)%float
  ∧ Billing.total cart discountPercent taxPercent
    = (Billing.taxableAmount cart discountPercent
       + Billing.taxAmount cart discountPercent taxPercent)%float.
Proof.
  intros Hd Ht. unfold Billing.total, Billing.taxAmount, Billing.taxableAmount,
    Billing.discountAmount. by rewrite Hd, Ht.
Qed.

(** C10.  The route takes [discount] and [tax] as amounts: each passes the
    validators exactly when it is a number (neither an infinity nor [NaN])
    that is at least 0, whatever the cart and whatever the other amount, and
    the sale recorded has [total = subtotal - discount + tax].  A discount of
    100 on a cart worth 10 is committed with a total of -90. *)
Theorem discount_amount_is_unbounded :
  (∀ items paymentMethod customerName discount tax,
     validationResult_isEmpty
       (SaleRequest.mk items paymentMethod customerName (Some discount) (Some tax))
     = validationResult_isEmpty (SaleRequest.mk items paymentMethod customerName None None)
       && (PrimFloat.is_finite discount && (0 <=? discount)%float)
       && (PrimFloat.is_finite tax && (0 <=? tax)%float))
  ∧ (∀ faults now user req d d' sale,
       post_sales faults now user req d = (d', mkResponse 201 (SaleBody sale)) →
       Sale.discount sale = default 0%float (SaleRequest.discount req)
       ∧ Sale.tax sale = default 0%float (SaleRequest.tax req)
       ∧ Sale.total sale
         = (Sale.subtotal sale - Sale.discount sale + Sale.tax sale)%float
       ∧ sales_json d' = sales_json d ++ [sale])
  ∧ ∃ req d' sale,
      validationResult_isEmpty req = true
      ∧ post_sales no_faults "2024-06-01T10:00:00.000Z" cashier req (disk1 5)
        = (d', mkResponse 201 (SaleBody sale))
      ∧ sale ∈ sales_json d'
      ∧ (Sale.subtotal sale + Sale.tax sale <? Sale.discount sale)%float = true
      ∧ (Sale.total sale <? 0)%float = true
      ∧ Sale.total sale = (-90)%float.
Proof.
  split_and!.
  - intros items paymentMethod customerName discount tax.
    unfold validationResult_isEmpty. simpl.
    by rewrite !andb_true_r.
  - intros faults now user req d d' sale Hpost.
    pose proof (post_sales_outcome faults now user req d) as Hout.
    rewrite Hpost in Hout.
    inversion Hout as [| | | |products' subtotal saleItems ? ? ? Hprice Hupd]; subst.
    { done. }
    by simplify_eq.
  - exists (SaleRequest.mk [CartLine.mk 1 1] "cash" None (Some 100%float) None).
    eexists _, _. split_and!; try reflexivity.
    vm_compute. apply list_elem_of_here.
Qed.

Lemma discount_amount_is_unbounded_witness :
  let result :=
    post_sales no_faults "2024-06-01T10:00:00.000Z" cashier
      (SaleRequest.mk [CartLine.mk 1 1] "cash" None (Some 100%float) None) (disk1 5) in
  ∃ sale,
    result.2 = mkResponse 201 (SaleBody sale)
    ∧ Sale.total sale = (Sale.subtotal sale - Sale.discount sale + Sale.tax sale)%float.
Proof.
  eexists. split; [reflexivity|].
  eapply (proj1 (proj2 discount_amount_is_unbounded) no_faults
            "2024-06-01T10:00:00.000Z" cashier
            (SaleRequest.mk [CartLine.mk 1 1] "cash" None (Some 100%float) None)
            (disk1 5)).
  reflexivity.
Defined.

(** ** Sale identifiers *)

Lemma commits_trans d1 d2 d3 : commits d1 d2 → commits d2 d3 → commits d1 d3.
Proof.
  intros H12 H23. induction H23; [done| |].
  - by constructor; auto.
  - by eapply commits_other; auto.
Qed.

Lemma Math_max_0_upper xs : Forall (λ x, x ≤ Math_max_0 xs) xs.
Proof.
  induction xs as [|x xs IH]; simpl; constructor; [lia|].
  eapply Forall_impl; [done|]. simpl. lia.
Qed.

Lemma Math_max_0_nonneg xs : 0 ≤ Math_max_0 xs.
Proof. induction xs; simpl; lia. Qed.

Lemma Math_max_0_member xs :
  xs ≠ [] → Forall (λ x, 0 ≤ x) xs → Math_max_0 xs ∈ xs.
Proof.
  induction xs as [|x xs IH]; [done|]. intros _ [Hx Hxs]%Forall_cons. simpl.
  destruct xs as [|y ys].
  { simpl. rewrite Z.max_l by done. apply list_elem_of_here. }
  destruct (Z.max_spec x (Math_max_0 (y :: ys))) as [[_ ->]|[_ ->]].
  - apply list_elem_of_further. by apply IH.
  - apply list_elem_of_here.
Qed.

Lemma ids_increasing_newSale sales saleItems subtotal discount tax req user now :
  ids_increasing sales →
  ids_increasing (sales ++ [newSale sales saleItems subtotal discount tax req user now]).
Proof.
  intros [Hsorted Hpos]. unfold ids_increasing. rewrite fmap_app. simpl.
  pose proof (Math_max_0_upper (Sale.id <$> sales)) as Hupper.
  split.
  - apply StronglySorted_app; split_and!; [|done|by repeat constructor].
    intros x1 x2 Hx1 ->%list_elem_of_singleton.
    eapply Forall_forall in Hupper; [|done]. simpl in Hupper. lia.
  - apply Forall_app. split; [done|]. constructor; [|done].
    pose proof (Math_max_0_nonneg (Sale.id <$> sales)). lia.
Qed.

(** One call either leaves the history or appends [newSale]. *)
Lemma post_sales_history faults now user req d :
  let result := post_sales faults now user req d in
  sales_json result.1 = sales_json d
  ∨ ∃ saleItems subtotal discount tax,
      let sale := newSale (sales_json d) saleItems subtotal discount tax req user now in
      sales_json result.1 = sales_json d ++ [sale]
      ∧ result.2 = mkResponse 201 (SaleBody sale).
Proof.
  simpl. destruct (post_sales_outcome faults now user req d); simpl; eauto 10.
Qed.

(** Only [POST /api/sales] writes [sales.json]: a call of a route leaves the
    history or appends the sale that it has committed. *)
Lemma serve_history toLowerCase d request :
  sales_json (serve toLowerCase d request) = sales_json d
  ∨ ∃ saleItems subtotal discount tax req user now,
      sales_json (serve toLowerCase d request)
      = sales_json d ++ [newSale (sales_json d) saleItems subtotal discount tax req user now].
Proof.
  destruct request as [[now user] call].
  destruct call as [faults req| | | | |]; simpl.
  { destruct (post_sales_history faults now user req d)
      as [?|(saleItems & subtotal & discount & tax & ? & _)]; [by left|].
    right. by exists saleItems, subtotal, discount, tax, req, user, now. }
  all: left.
  all: unfold requireRole, post_products, put_products, delete_products,
         post_categories, delete_categories, writeDataFile, writeDataFile_categories.
  all: repeat case_match; simplify_eq; done.
Qed.

Lemma commits_ids_increasing d0 d :
  ids_increasing (sales_json d0) → commits d0 d → ids_increasing (sales_json d).
Proof.
  intros Hstart Hcommits.
  induction Hcommits as [|toLowerCase d d1 request _ IH|d d1 d2 _ IH Hsame]; [done| |].
  - destruct (serve_history toLowerCase d1 request)
      as [->|(saleItems & subtotal & discount & tax & req & user & now & ->)];
      [by auto|].
    by apply ids_increasing_newSale; auto.
  - rewrite Hsame. auto.
Qed.

Lemma commits_append_only d d' :
  commits d d' → sales_json d `prefix_of` sales_json d'.
Proof.
  induction 1 as [|toLowerCase d d1 request _ IH|d d1 d2 _ IH Hsame]; [done| |].
  - destruct (serve_history toLowerCase d1 request)
      as [->|(saleItems & subtotal & discount & tax & req & user & now & ->)]; [done|].
    by apply prefix_app_r.
  - by rewrite Hsame.
Qed.

(** A run of calls, in any order. *)
Lemma calls_commits toLowerCase requests : ∀ d,
  commits d (fold_left (serve toLowerCase) requests d).
Proof.
  induction requests as [|request requests IH]; intros d; simpl; [apply commits_none|].
  eapply commits_trans; [|apply IH]. apply commits_call, commits_none.
Qed.

Lemma StronglySorted_lt_NoDup (xs : list Z) : StronglySorted Z.lt xs → NoDup xs.
Proof.
  induction 1 as [|x xs _ IH Hlt]; constructor; [|done].
  intros Hin. eapply Forall_forall in Hlt; [|done]. lia.
Qed.

(** C9.  Start from an empty sale history and let the routes be called any
    number of times in any order, commits and changes of the products and of
    the categories alike.  A sale that is then committed gets 1 when the
    history is empty and otherwise one more than the greatest identifier on
    file; it is greater than every identifier on file, and it is appended.
    After any further calls of the routes the history on file still starts
    with this one, so no sale has been removed, and its identifiers are
    strictly increasing and without repetition. *)
Theorem sale_id_is_fresh d0 d faults now user req d' sale :
  sales_json d0 = [] →
  commits d0 d →
  post_sales faults now user req d = (d', mkResponse 201 (SaleBody sale)) →
  (sales_json d = [] → Sale.id sale = 1)
  ∧ (sales_json d ≠ [] →
       ∃ greatest,
         greatest ∈ sales_json d
         ∧ (∀ s, s ∈ sales_json d → Sale.id s ≤ Sale.id greatest)
         ∧ Sale.id sale = Sale.id greatest + 1)
  ∧ (∀ s, s ∈ sales_json d → Sale.id s < Sale.id sale)
  ∧ sales_json d' = sales_json d ++ [sale]
  ∧ ∀ d'',
      commits d' d'' →
      sales_json d' `prefix_of` sales_json d''
      ∧ StronglySorted Z.lt (Sale.id <$> sales_json d'')
      ∧ NoDup (Sale.id <$> sales_json d'').
Proof.
  intros Hempty Hcommits Hpost.
  assert (ids_increasing (sales_json d)) as [Hsorted Hpos].
  { eapply commits_ids_increasing; [|done]. rewrite Hempty. by split; constructor. }
  pose proof (Math_max_0_upper (Sale.id <$> sales_json d)) as Hupper.
  assert (commits d0 d') as Hcommits'.
  { replace d' with (serve id d (now, user, PostSales faults req))
      by (simpl; by rewrite Hpost).
    by constructor. }
  pose proof (post_sales_outcome faults now user req d) as Hout.
  rewrite Hpost in Hout.
  inversion Hout as [| | | |products' subtotal saleItems ? ? ? Hprice Hupd]; [done|].
  clear Hout. subst sale0. simplify_eq.
  split_and!.
  - intros Hnil. simpl. by rewrite Hnil.
  - intros Hne. simpl.
    assert (Math_max_0 (Sale.id <$> sales_json d) ∈ Sale.id <$> sales_json d) as Hmem.
    { apply Math_max_0_member; [by destruct (sales_json d)|].
      eapply Forall_impl; [exact Hpos|]. simpl. lia. }
    apply list_elem_of_fmap in Hmem as (greatest & Hid & Hin).
    exists greatest. split_and!; [done| |by rewrite Hid].
    intros s Hs. rewrite <- Hid.
    eapply Forall_forall in Hupper; [done|]. by apply list_elem_of_fmap_2.
  - intros s Hs. simpl.
    eapply Forall_forall in Hupper; [|by apply list_elem_of_fmap_2]. simpl in Hupper. lia.
  - done.
  - intros d'' Hlater.
    assert (ids_increasing (sales_json d'')) as [Hsorted'' _].
    { eapply commits_ids_increasing; [|exact (commits_trans _ _ _ Hcommits' Hlater)].
      rewrite Hempty. by split; constructor. }
    split_and!; [by apply commits_append_only | done | by apply StronglySorted_lt_NoDup].
Qed.

Lemma sale_id_is_fresh_witness :
  let first := cart_request [CartLine.mk 1 1] in
  let d :=
    fold_left (serve ascii_toLowerCase)
      [("2024-06-01T10:00:00.000Z", cashier, PostSales no_faults first);
       ("2024-06-01T11:00:00.000Z", admin,
        PutProducts false 1 (product_request "Widget" "W001" 1));
       ("2024-06-01T12:00:00.000Z", admin, PostCategories false "Toys" None)]
      (disk1 5) in
  ∃ d' sale,
    post_sales no_faults "2024-06-02T10:00:00.000Z" cashier first d
    = (d', mkResponse 201 (SaleBody sale))
    ∧ Product.price <$> products_json d = [5%float]
    ∧ Sale.id sale = 2
    ∧ (∀ s, s ∈ sales_json d → Sale.id s < Sale.id sale).
Proof.
  eexists _, _. split; [reflexivity|]. split; [reflexivity|]. split; [reflexivity|].
  eapply (sale_id_is_fresh (disk1 5) _ no_faults "2024-06-02T10:00:00.000Z" cashier
            (cart_request [CartLine.mk 1 1])).
  - reflexivity.
  - cbn [fold_left]. do 3 apply commits_call. apply commits_none.
  - reflexivity.
Defined.

(** ** Sorting *)

Section SortFacts.
Context {A : Type} (cmp : A → A → Z) (rank : A → Z).
Hypothesis cmp_rank : ∀ x y, cmp x y ≤ 0 ↔ rank x ≤ rank y.

Lemma sort_insert_Permutation x l : sort_insert cmp x l ≡ₚ x :: l.
Proof.
  induction l as [|y r IH]; simpl; [done|].
  destruct (cmp x y <=? 0); [done|].
  rewrite IH. apply Permutation_swap.
Qed.

Lemma Array_sort_Permutation l : Array_sort cmp l ≡ₚ l.
Proof.
  induction l as [|x l IH]; simpl; [done|].
  by rewrite sort_insert_Permutation, IH.
Qed.

Lemma sort_insert_sorted (R : A → A → Prop) x l :
  Forall (R x) l →
  StronglySorted (sorted_then rank R) l →
  StronglySorted (sorted_then rank R) (sort_insert cmp x l).
Proof.
  intros Hx Hsorted. induction Hsorted as [|y r Hr IH Hy]; simpl.
  { by repeat constructor. }
  apply Forall_cons in Hx as [Hxy Hxr].
  destruct (Z.leb_spec (cmp x y) 0) as [Hle|Hgt].
  - apply cmp_rank in Hle. constructor; [by constructor|].
    constructor.
    + destruct (decide (rank x = rank y)); [by right | left; lia].
    + apply Forall_forall. intros z Hz.
      eapply Forall_forall in Hy; [|done]. eapply Forall_forall in Hxr; [|done].
      destruct Hy as [?|[? _]]; [left; lia|].
      destruct (decide (rank x = rank z)); [by right | left; lia].
  - assert (rank y < rank x) as Hlt.
    { destruct (Z.le_gt_cases (rank x) (rank y)) as [Hc|]; [|done].
      apply cmp_rank in Hc. lia. }
    constructor; [by apply IH|].
    rewrite sort_insert_Permutation. constructor; [by left | done].
Qed.

Lemma Array_sort_sorted (R : A → A → Prop) l :
  StronglySorted R l →
  StronglySorted (sorted_then rank R) (Array_sort cmp l).
Proof.
  induction 1 as [|x l Hl IH Hx]; simpl; [constructor|].
  apply sort_insert_sorted; [|done].
  by rewrite Array_sort_Permutation.
Qed.
End SortFacts.

Lemma NoDup_StronglySorted_ne {A B} (f : A → B) (l : list A) :
  NoDup (f <$> l) → StronglySorted (λ a b, f a ≠ f b) l.
Proof.
  induction l as [|x l IH]; simpl; [constructor|].
  intros [Hx Hl]%NoDup_cons. constructor; [by apply IH|].
  apply Forall_forall. intros y Hy Heq. apply Hx. rewrite Heq.
  by apply list_elem_of_fmap_2.
Qed.

Lemma StronglySorted_take {A} (R : A → A → Prop) n (l : list A) :
  StronglySorted R l → StronglySorted R (take n l).
Proof.
  intros Hsorted. rewrite <- (take_drop n l) in Hsorted.
  by apply StronglySorted_app in Hsorted as (_ & ? & _).
Qed.

(** ** Objects with integer property names *)

Section JsObjectFacts.
Context {V : Type}.
Implicit Types (o : list (Z * V)) (k : Z).

Lemma obj_get_None k o : obj_get k o = None ↔ k ∉ o.*1.
Proof.
  induction o as [|[k' v] o IH]; simpl.
  { split; [intros _; apply not_elem_of_nil | done]. }
  rewrite not_elem_of_cons. case_decide as Hk.
  - split; [done|]. by intros [? _].
  - rewrite IH. split; [by intros | by intros [_ ?]].
Qed.

Lemma obj_get_elem_of k v o : NoDup o.*1 → (k, v) ∈ o → obj_get k o = Some v.
Proof.
  induction o as [|[k' v'] o IH]; simpl; [by intros _ ?%elem_of_nil|].
  intros [Hfresh Hnodup]%NoDup_cons [Heq|Hin]%elem_of_cons.
  - simplify_eq. by rewrite decide_True.
  - rewrite decide_False; [by apply IH|].
    intros ->. apply Hfresh. by apply (list_elem_of_fmap_2 fst) in Hin.
Qed.

Lemma obj_get_Some k v o : obj_get k o = Some v → (k, v) ∈ o.
Proof.
  induction o as [|[k' v'] o IH]; simpl; [done|].
  case_decide; simplify_eq.
  - intros [= ->]. apply list_elem_of_here.
  - intros Hget. by apply list_elem_of_further, IH.
Qed.

Lemma obj_get_create k k' v o :
  obj_get k (obj_create k' v o)
  = match obj_get k o with
    | Some x => Some x
    | None => if decide (k' = k) then Some v else None
    end.
Proof.
  unfold obj_create. induction o as [|[k1 v1] o IH]; simpl; [done|].
  destruct (decide (k1 = k)); [done | apply IH].
Qed.

Lemma obj_get_mutate (f : V → V) k k' o :
  obj_get k (obj_mutate f k' o)
  = if decide (k = k') then f <$> obj_get k o else obj_get k o.
Proof.
  induction o as [|[k1 v1] o IH]; simpl; [by case_decide|].
  fold (obj_mutate f k' o). rewrite IH.
  destruct (decide (k1 = k')) as [->|Hk1]; simpl.
  - destruct (decide (k' = k)) as [->|]; [by rewrite decide_True|].
    by rewrite decide_False.
  - destruct (decide (k1 = k)) as [->|]; [by rewrite decide_False|done].
Qed.

Lemma obj_mutate_names (f : V → V) k o : (obj_mutate f k o).*1 = o.*1.
Proof.
  unfold obj_mutate. rewrite <- list_fmap_compose.
  apply list_fmap_ext. intros i [k1 v1] _. simpl. by case_decide.
Qed.

Lemma Object_entries_Permutation o : Object_entries o ≡ₚ o.
Proof.
  unfold Object_entries. rewrite Array_sort_Permutation.
  rewrite (list_filter_iff (λ kv, negb (is_array_index kv.1))
             (λ kv, ¬ is_array_index kv.1)) by (intros kv; apply negb_True).
  apply filter_app_complement.
Qed.
End JsObjectFacts.

Lemma StronglySorted_Forall_impl {A} (P : A → Prop) (R R' : A → A → Prop) l :
  (∀ a b, P a → P b → R a b → R' a b) →
  Forall P l → StronglySorted R l → StronglySorted R' l.
Proof.
  intros Himpl HP Hsorted.
  induction Hsorted as [|x l Hl IH Hx]; [constructor|].
  apply Forall_cons in HP as [HPx HPl].
  constructor; [by apply IH|].
  apply Forall_forall. intros y Hy.
  apply Himpl; [done| |]; by eapply Forall_forall.
Qed.

Lemma StronglySorted_trivial {A} (l : list A) : StronglySorted (λ _ _, True) l.
Proof. induction l; constructor; [done|]. by apply Forall_forall. Qed.

Lemma Object_entries_sorted {V} (o : list (Z * V)) :
  NoDup o.*1 →
  StronglySorted (λ a b, entries_order a.1 b.1) (Object_entries o).
Proof.
  intros Hnodup. unfold Object_entries.
  apply StronglySorted_app. split_and!.
  - intros x1 x2 Hx1 Hx2.
    rewrite Array_sort_Permutation in Hx1.
    apply list_elem_of_filter in Hx1 as [Hidx1 _].
    apply list_elem_of_filter in Hx2 as [Hidx2 _].
    unfold entries_order.
    destruct (is_array_index x1.1), (is_array_index x2.1); done.
  - apply (StronglySorted_Forall_impl (λ kv, is_array_index kv.1)
             (sorted_then fst (λ a b, a.1 ≠ b.1))).
    + intros a b Ha Hb [Hlt|[Heq Hne]]; [|done].
      unfold entries_order.
      destruct (is_array_index a.1), (is_array_index b.1); done.
    + rewrite Array_sort_Permutation. apply Forall_forall.
      by intros x [? _]%list_elem_of_filter.
    + apply Array_sort_sorted; [intros x y; lia|].
      apply NoDup_StronglySorted_ne.
      eapply sublist_NoDup; [done|].
      apply fmap_sublist, sublist_filter.
  - apply (StronglySorted_Forall_impl (λ kv, negb (is_array_index kv.1)) (λ _ _, True)).
    + intros a b Ha Hb _. unfold entries_order.
      destruct (is_array_index a.1), (is_array_index b.1); done.
    + apply Forall_forall. by intros x [? _]%list_elem_of_filter.
    + apply StronglySorted_trivial.
Qed.

(** ** Top products *)

Lemma forEach_item_all_items {S} (f : S → SaleItem.t → S) sales s :
  forEach_item f sales s = fold_left f (all_items sales) s.
Proof.
  unfold forEach_item, all_items. revert s.
  induction sales as [|sale sales IH]; intros s; simpl; [done|].
  by rewrite fold_left_app, IH.
Qed.

Lemma foldr_add_snoc (xs : list Z) x : foldr Z.add 0 (xs ++ [x]) = foldr Z.add 0 xs + x.
Proof. induction xs as [|y xs IH]; simpl; lia. Qed.

Lemma accumulated_other id items item :
  SaleItem.productId item ≠ id →
  accumulated id (items ++ [item]) = accumulated id items.
Proof.
  intros Hne. unfold accumulated, lines_of.
  by rewrite filter_app, filter_cons_False, filter_nil, app_nil_r.
Qed.

Lemma accumulated_first items item :
  accumulated (SaleItem.productId item) items = None →
  accumulated (SaleItem.productId item) (items ++ [item])
  = Some (ProductSales.mk (SaleItem.productName item) (SaleItem.quantity item)
            (SaleItem.total item)).
Proof.
  unfold accumulated, lines_of.
  rewrite filter_app, filter_cons_True, filter_nil by done.
  destruct (filter _ items); [|done]. intros _. simpl.
  by rewrite Z.add_0_r.
Qed.

Lemma accumulated_more items item data :
  accumulated (SaleItem.productId item) items = Some data →
  accumulated (SaleItem.productId item) (items ++ [item])
  = Some (ProductSales.mk (ProductSales.productName data)
            (ProductSales.quantity data + SaleItem.quantity item)
            (ProductSales.total data + SaleItem.total item)%float).
Proof.
  unfold accumulated, lines_of.
  rewrite filter_app, filter_cons_True, filter_nil by done.
  destruct (filter _ items) as [|first more]; [done|]. intros [= <-].
  rewrite <- app_comm_cons, fmap_cons, fmap_app, fold_left_app. simpl.
  by rewrite foldr_add_snoc, Z.add_assoc.
Qed.

(** [productSales] has one property per product id sold, holding what the
    lines of that id add up to. *)
Lemma productSales_accumulated items :
  let productSales := fold_left productSales_item items [] in
  NoDup productSales.*1
  ∧ ∀ id, obj_get id productSales = accumulated id items.
Proof.
  induction items as [|item items [Hnodup Hget]] using rev_ind; simpl.
  { split; [constructor | done]. }
  rewrite fold_left_app. simpl.
  set (productSales := fold_left productSales_item items []) in *.
  unfold productSales_item.
  destruct (obj_get (SaleItem.productId item) productSales) as [data|] eqn:Hitem.
  - split; [by rewrite obj_mutate_names|].
    intros id. rewrite obj_get_mutate.
    destruct (decide (id = SaleItem.productId item)) as [->|Hne].
    + rewrite Hitem. simpl. rewrite Hget in Hitem.
      by rewrite (accumulated_more _ _ _ Hitem).
    + rewrite accumulated_other by done. apply Hget.
  - split.
    + unfold obj_create. rewrite fmap_app. simpl.
      apply NoDup_app. split_and!; [done| |by apply NoDup_singleton].
      intros k Hk ->%list_elem_of_singleton. by apply obj_get_None in Hitem.
    + intros id. rewrite obj_get_create.
      destruct (decide (SaleItem.productId item = id)) as [<-|Hne].
      * rewrite Hitem. rewrite Hget in Hitem.
        by rewrite (accumulated_first _ _ Hitem).
      * rewrite accumulated_other by done. rewrite <- Hget.
        by destruct (obj_get id productSales).
Qed.

(** A product that was sold is among the top products, unless there are 10
    of them that sold at least as many units. *)
Lemma topProducts_are_the_top (filteredSales : list Sale.t) id data :
  accumulated id (all_items filteredSales) = Some data →
  let topProducts := topProducts_of filteredSales in
  TopProduct.mk id (ProductSales.productName data) (ProductSales.quantity data)
    (ProductSales.total data) ∈ topProducts
  ∨ (length topProducts = 10%nat
     ∧ ∀ entry, entry ∈ topProducts →
                ProductSales.quantity data ≤ TopProduct.quantity entry).
Proof.
  intros Hacc. simpl. unfold topProducts_of, productSales_of.
  rewrite forEach_item_all_items.
  destruct (productSales_accumulated (all_items filteredSales)) as [Hnodup Hget].
  set (productSales := fold_left productSales_item (all_items filteredSales) []) in *.
  set (cmp := λ a b : Z * ProductSales.t,
         ProductSales.quantity b.2 - ProductSales.quantity a.2).
  set (sorted := Array_sort cmp (Object_entries productSales)).
  assert ((id, data) ∈ sorted) as Hin.
  { unfold sorted. rewrite Array_sort_Permutation, Object_entries_Permutation.
    apply obj_get_Some. by rewrite Hget. }
  assert (StronglySorted
            (sorted_then (λ kv : Z * ProductSales.t, - ProductSales.quantity kv.2)
               (λ _ _, True)) sorted) as Hsorted.
  { apply (Array_sort_sorted cmp); [intros x y; unfold cmp; lia|].
    apply StronglySorted_trivial. }
  rewrite <- (take_drop 10 sorted) in Hin, Hsorted.
  apply elem_of_app in Hin as [Htop|Hrest].
  - left. apply list_elem_of_fmap. by exists (id, data).
  - right. split.
    + rewrite length_fmap, length_take.
      destruct (decide (10 ≤ length sorted)%nat) as [|Hshort]; [lia|].
      rewrite drop_ge in Hrest by lia. by apply elem_of_nil in Hrest.
    + intros entry (kv & -> & Hkv)%list_elem_of_fmap. simpl.
      apply StronglySorted_app in Hsorted as (Hlt & _ & _).
      destruct (Hlt kv (id, data) Hkv Hrest) as [?|[? _]]; simpl in *; lia.
Qed.

(** C7.  For every filtered history, [topProducts] has one entry per product
    id at most; each entry holds, for its id, the name on the first line, the
    sum of the quantities and the running sum of the totals of the lines with
    that id; the entries are in descending order of quantity, ties in the
    order of [Object.entries] on the ids (array indices ascending, before any
    other id); there are at most 10 of them; and every product id on a line of
    the history has its entry, with what was accumulated for it, unless there
    are 10 entries that each hold at least its quantity. *)
Theorem topProducts_accumulated_sorted_capped (filteredSales : list Sale.t) :
  let topProducts := topProducts_of filteredSales in
  NoDup (TopProduct.productId <$> topProducts)
  ∧ (∀ entry,
       entry ∈ topProducts →
       accumulated (TopProduct.productId entry) (all_items filteredSales)
       = Some (ProductSales.mk (TopProduct.productName entry)
                 (TopProduct.quantity entry) (TopProduct.total entry)))
  ∧ StronglySorted (λ a b, TopProduct.quantity b ≤ TopProduct.quantity a) topProducts
  ∧ StronglySorted ranks_before topProducts
  ∧ (length topProducts ≤ 10)%nat
  ∧ (∀ id data,
       accumulated id (all_items filteredSales) = Some data →
       TopProduct.mk id (ProductSales.productName data) (ProductSales.quantity data)
         (ProductSales.total data) ∈ topProducts
       ∨ (length topProducts = 10%nat
          ∧ ∀ entry, entry ∈ topProducts →
                     ProductSales.quantity data ≤ TopProduct.quantity entry)).
Proof.
  simpl.
  assert (∀ id data,
            accumulated id (all_items filteredSales) = Some data →
            TopProduct.mk id (ProductSales.productName data) (ProductSales.quantity data)
              (ProductSales.total data) ∈ topProducts_of filteredSales
            ∨ (length (topProducts_of filteredSales) = 10%nat
               ∧ ∀ entry, entry ∈ topProducts_of filteredSales →
                          ProductSales.quantity data ≤ TopProduct.quantity entry))
    as Hcomplete.
  { intros id data Hacc. by apply topProducts_are_the_top. }
  revert Hcomplete.
  unfold topProducts_of, productSales_of.
  rewrite forEach_item_all_items.
  destruct (productSales_accumulated (all_items filteredSales)) as [Hnodup Hget].
  set (productSales := fold_left productSales_item (all_items filteredSales) []) in *.
  set (cmp := λ a b : Z * ProductSales.t,
         ProductSales.quantity b.2 - ProductSales.quantity a.2).
  set (sorted := Array_sort cmp (Object_entries productSales)).
  assert (sorted ≡ₚ productSales) as Hperm.
  { unfold sorted. by rewrite Array_sort_Permutation, Object_entries_Permutation. }
  assert (StronglySorted ranks_before
            ((λ kv, TopProduct.mk kv.1 (ProductSales.productName kv.2)
                      (ProductSales.quantity kv.2) (ProductSales.total kv.2))
             <$> take 10 sorted)) as Hsorted.
  { eapply StronglySorted_fmap; [|apply StronglySorted_take].
    2: { apply (Array_sort_sorted cmp (λ kv, - ProductSales.quantity kv.2)).
         - intros x y. unfold cmp. lia.
         - by apply Object_entries_sorted. }
    intros x y [Hlt|[Heq Horder]]; [left|right]; simpl; [lia|]. split; [lia|done]. }
  intros Hcomplete. split_and!; [| | | | |exact Hcomplete].
  - rewrite <- list_fmap_compose.
    assert (NoDup sorted.*1) as Hsorted_names by by rewrite Hperm.
    eapply sublist_NoDup; [exact Hsorted_names|].
    apply (fmap_sublist fst), sublist_take.
  - intros entry (kv & -> & Hkv)%list_elem_of_fmap. simpl.
    rewrite <- Hget.
    rewrite (obj_get_elem_of kv.1 kv.2 productSales Hnodup).
    + by destruct kv as [k []].
    + rewrite <- Hperm. apply elem_of_take in Hkv as (i & Hi & _).
      destruct kv. by eapply list_elem_of_lookup_2.
  - eapply (StronglySorted_Forall_impl (λ _, True)); [|by apply Forall_true|exact Hsorted].
    intros a b _ _ [?|[? _]]; lia.
  - done.
  - rewrite length_fmap, length_take. lia.
Qed.

Lemma topProducts_witness :
  let item id name quantity total := SaleItem.mk id name "" 1%float quantity total in
  let sale items := Sale.mk 1 items 0 0 0 0 "cash" "" 2 "cashier" "" in
  let history :=
    [sale [item 3 "Shirt" 2 2%float; item 1 "Phone" 5 5%float];
     sale [item 2 "Laptop" 1 1%float; item 2 "Laptop" 1 1%float]] in
  topProducts_of history
  = [TopProduct.mk 1 "Phone" 5 5%float; TopProduct.mk 2 "Laptop" 2 2%float;
     TopProduct.mk 3 "Shirt" 2 2%float]
  ∧ accumulated 2 (all_items history) = Some (ProductSales.mk "Laptop" 2 2%float).
Proof.
  intros item sale history. split; [reflexivity|].
  apply (proj1 (proj2 (topProducts_accumulated_sorted_capped history))
           (TopProduct.mk 2 "Laptop" 2 2%float)).
  vm_compute. apply list_elem_of_further, list_elem_of_here.
Defined.

(** ** Date filter and totals *)

Lemma date_le_in_bounds (lo hi t : option Z) :
  date_le lo t && date_le t hi ↔ in_bounds lo hi t.
Proof.
  rewrite andb_True. destruct lo, t, hi; simpl; try tauto.
  by rewrite !Is_true_true, !Z.leb_le.
Qed.

Lemma fold_left_totals (sales : list Sale.t) (sum : float) :
  fold_left (λ sum sale, (sum + Sale.total sale)%float) sales sum
  = fold_left PrimFloat.add (Sale.total <$> sales) sum.
Proof. revert sum. induction sales as [|sale sales IH]; intros sum; simpl; [done|]. apply IH. Qed.

(** C6.  When both bounds are supplied (each a non-empty string), the sales
    counted are exactly those of the history whose date is between the
    bounds, ends included, in the order of the history; when a bound is
    omitted or empty they are the whole history.  [totalSales] is the sum of their
    totals and [totalTransactions] their number. *)
Theorem analytics_filter_and_totals (new_Date : string → option Z)
    (startDate endDate : option string) (d : Disk) :
  let included := filteredSales_of new_Date startDate endDate (sales_json d) in
  let result := analytics new_Date startDate endDate d in
  (∀ s e,
     startDate = Some s → endDate = Some e → s ≠ "" → e ≠ "" →
     included
     = filter (λ sale, in_bounds (new_Date s) (new_Date e)
                         (new_Date (Sale.createdAt sale)))
         (sales_json d))
  ∧ (startDate = None ∨ startDate = Some "" ∨ endDate = None ∨ endDate = Some "" →
       included = sales_json d)
  ∧ AnalyticsResult.totalSales result = sum_from_left (Sale.total <$> included)
  ∧ AnalyticsResult.totalTransactions result = length included.
Proof.
  simpl. split_and!.
  - intros s e -> -> Hs He. unfold filteredSales_of.
    destruct s as [|c s]; [done|]. destruct e as [|c' e]; [done|]. simpl.
    apply list_filter_iff. intros sale. apply date_le_in_bounds.
  - unfold filteredSales_of. intros [-> | [-> | [-> | ->]]]; simpl; try done.
    all: by destruct (truthy_string startDate).
  - apply fold_left_totals.
  - done.
Qed.

(** Scenario E: the sale of 1 February is outside the bounds; the sale dated
    the instant of the upper bound is inside. *)
Lemma analytics_filter_and_totals_witness :
  filteredSales_of scenario_Date (Some "2024-01-01") (Some "2024-01-31") scenario_history
  = take 2 scenario_history
  ∧ AnalyticsResult.totalSales
      (analytics scenario_Date (Some "2024-01-01") (Some "2024-01-31") scenario_disk)
    = 70%float
  ∧ filteredSales_of scenario_Date None None scenario_history = scenario_history.
Proof.
  destruct (analytics_filter_and_totals scenario_Date (Some "2024-01-01")
              (Some "2024-01-31") scenario_disk) as (Hboth & _ & Htotal & _).
  destruct (analytics_filter_and_totals scenario_Date None None scenario_disk)
    as (_ & Hnone & _).
  change (sales_json scenario_disk) with scenario_history in *.
  split_and!.
  - rewrite (Hboth "2024-01-01" "2024-01-31"); done.
  - rewrite Htotal. reflexivity.
  - apply Hnone. by left.
Defined.

(** ** Sales by category *)

Lemma salesByCategory_item_dangling products categories salesByCategory item :
  ¬ resolves products item →
  salesByCategory_item products categories salesByCategory item = salesByCategory.
Proof.
  unfold resolves, salesByCategory_item. intros Hgone.
  destruct (Array_find _ products); [|done].
  exfalso. by apply Hgone.
Qed.

Lemma fold_left_skip {S A} (f : S → A → S) (P : A → Prop) `{∀ x, Decision (P x)}
    (l : list A) (s : S) :
  (∀ s x, ¬ P x → f s x = s) →
  fold_left f (filter P l) s = fold_left f l s.
Proof.
  intros Hskip. revert s. induction l as [|x l IH]; intros s; [done|].
  rewrite filter_cons. case_decide; simpl; [done|].
  by rewrite Hskip.
Qed.

Lemma forEach_item_without_dangling products categories sales salesByCategory :
  forEach_item (salesByCategory_item products categories)
    (without_dangling products <$> sales) salesByCategory
  = forEach_item (salesByCategory_item products categories) sales salesByCategory.
Proof.
  unfold forEach_item. revert salesByCategory.
  induction sales as [|sale sales IH]; intros salesByCategory; simpl; [done|].
  rewrite IH. f_equal. apply fold_left_skip.
  intros s item. apply salesByCategory_item_dangling.
Qed.

Lemma filteredSales_of_without_dangling new_Date startDate endDate products sales :
  filteredSales_of new_Date startDate endDate (without_dangling products <$> sales)
  = without_dangling products <$> filteredSales_of new_Date startDate endDate sales.
Proof.
  unfold filteredSales_of.
  destruct (truthy_string startDate) as [s|]; [|done].
  destruct (truthy_string endDate) as [e|]; [|done].
  induction sales as [|sale sales IH]; [done|].
  rewrite fmap_cons, !filter_cons. simpl. rewrite IH.
  by case_decide.
Qed.

(** C8.  The handler answers 200 with a result for every state of the data
    files and every query.  A line item whose product is gone leaves
    [salesByCategory] as it is, so the mapping is the one of the history
    without these line items.  On an empty history the totals are 0 and both
    collections are empty. *)
Theorem analytics_never_fails (new_Date : string → option Z)
    (startDate endDate : option string) (d : Disk) :
  (∃ result,
     get_analytics_sales new_Date startDate endDate d
     = mkResponse 200 (AnalyticsBody result))
  ∧ (∀ salesByCategory item,
       ¬ resolves (products_json d) item →
       salesByCategory_item (products_json d) (categories_json d) salesByCategory item
       = salesByCategory)
  ∧ AnalyticsResult.salesByCategory (analytics new_Date startDate endDate d)
    = AnalyticsResult.salesByCategory
        (analytics new_Date startDate endDate
           (mkDisk (products_json d) (categories_json d)
              (without_dangling (products_json d) <$> sales_json d)))
  ∧ (sales_json d = [] →
       analytics new_Date startDate endDate d = AnalyticsResult.mk 0%float 0 ∅ []).
Proof.
  split_and!.
  - by eexists.
  - intros salesByCategory item. apply salesByCategory_item_dangling.
  - unfold analytics. simpl.
    by rewrite filteredSales_of_without_dangling, forEach_item_without_dangling.
  - intros Hempty. unfold analytics. rewrite Hempty.
    assert (filteredSales_of new_Date startDate endDate [] = []) as ->; [|done].
    unfold filteredSales_of.
    by destruct (truthy_string startDate), (truthy_string endDate).
Qed.

(** The sale of the product that is gone adds to the totals and to the top
    products, not to the categories. *)
Lemma analytics_never_fails_witness :
  let result := analytics scenario_Date None None scenario_disk in
  AnalyticsResult.salesByCategory result
  = {["Electronics" := 50%float; "Clothing" := 20%float]}
  ∧ AnalyticsResult.totalSales result = 75%float
  ∧ analytics scenario_Date None None (mkDisk [] [] [])
    = AnalyticsResult.mk 0%float 0 ∅ [].
Proof.
  destruct (analytics_never_fails scenario_Date None None scenario_disk)
    as (_ & _ & Hskip & _).
  destruct (analytics_never_fails scenario_Date None None (mkDisk [] [] []))
    as (_ & _ & _ & Hempty).
  split_and!.
  - rewrite Hskip. by vm_compute.
  - reflexivity.
  - by apply Hempty.
Defined.


(** * Properties of the sale lines, the catalog routes, the dashboard and the cart *)

(** ** Lookups *)

Lemma Array_find_cons {A} (P : A → Prop) `{∀ x, Decision (P x)} x (l : list A) :
  Array_find P (x :: l) = if decide (P x) then Some x else Array_find P l.
Proof.
  unfold Array_find. simpl. case_decide; [done|].
  by destruct (list_find P l) as [[i y]|].
Qed.

Lemma Array_find_Some {A} (P : A → Prop) `{∀ x, Decision (P x)} (l : list A) x :
  Array_find P l = Some x → x ∈ l ∧ P x.
Proof.
  induction l as [|y l IH]; [done|]. rewrite Array_find_cons.
  case_decide.
  - intros [= ->]. split; [apply list_elem_of_here | done].
  - intros [Hin HP]%IH. split; [by apply list_elem_of_further | done].
Qed.

Lemma Array_find_None {A} (P : A → Prop) `{∀ x, Decision (P x)} (l : list A) :
  Array_find P l = None ↔ Forall (λ x, ¬ P x) l.
Proof.
  induction l as [|y l IH]; [by split; [constructor|]|].
  rewrite Array_find_cons, Forall_cons. case_decide.
  - split; [done | by intros [? _]].
  - rewrite IH. split; [by intros | by intros [_ ?]].
Qed.

Lemma Array_find_app {A} (P : A → Prop) `{∀ x, Decision (P x)} (l k : list A) :
  Array_find P (l ++ k)
  = match Array_find P l with Some x => Some x | None => Array_find P k end.
Proof.
  induction l as [|y l IH]; [done|]. simpl. rewrite !Array_find_cons.
  by case_decide.
Qed.

(** A filter that keeps everything a lookup could return does not change
    what it returns. *)
Lemma Array_find_filter {A} (P Q : A → Prop) `{∀ x, Decision (P x)}
    `{∀ x, Decision (Q x)} (l : list A) :
  (∀ x, P x → Q x) →
  Array_find P (filter Q l) = Array_find P l.
Proof.
  intros HPQ. induction l as [|y l IH]; [done|].
  rewrite filter_cons, Array_find_cons.
  destruct (decide (P y)) as [HP|HP].
  - rewrite decide_True by auto. by rewrite Array_find_cons, decide_True.
  - case_decide; [|done]. by rewrite Array_find_cons, decide_False.
Qed.

(** ** The lines of a committed sale *)

Lemma price_items_lines products items : ∀ subtotal saleItems subtotal' saleItems',
  price_items products items subtotal saleItems = inr (subtotal', saleItems') →
  ∃ new,
    saleItems' = saleItems ++ new
    ∧ Forall2 (line_priced products) items new
    ∧ subtotal'
      = fold_left (λ sum item, (sum + SaleItem.total item)%float) new subtotal.
Proof.
  induction items as [|line items IH]; intros subtotal saleItems subtotal' saleItems'; simpl.
  { intros [= <- <-]. exists []. by rewrite app_nil_r. }
  destruct (Array_find _ products) as [product|] eqn:Hfind; [|done].
  destruct (Product.stock product <? CartLine.quantity line); [done|].
  intros (new & -> & Hlines & ->)%IH.
  eexists (_ :: new). rewrite <- app_assoc. split_and!; [done| |done].
  constructor; [|done]. by exists product.
Qed.

(** X1.  The sale that a commit records lists the lines of the cart in order,
    each with the id, name, SKU and price that the product has on file at
    that moment and [total = price * quantity]; its subtotal is the sum of
    the line totals taken from the left, starting at 0. *)
Theorem sale_lines_and_subtotal faults now user req d d' sale :
  post_sales faults now user req d = (d', mkResponse 201 (SaleBody sale)) →
  Forall2 (line_priced (products_json d)) (SaleRequest.items req) (Sale.items sale)
  ∧ Sale.subtotal sale
    = fold_left (λ sum item, (sum + SaleItem.total item)%float) (Sale.items sale) 0%float
  ∧ Sale.cashierId sale = User.id user
  ∧ Sale.cashierName sale = User.username user
  ∧ Sale.createdAt sale = now.
Proof.
  intros Hpost.
  pose proof (post_sales_outcome faults now user req d) as Hout.
  rewrite Hpost in Hout.
  inversion Hout as [| | | |products' subtotal saleItems ? ? ? Hprice Hupd]; [done|].
  subst sale0. simplify_eq.
  apply price_items_lines in Hprice as (new & -> & Hlines & ->).
  by split_and!.
Qed.

Lemma sale_lines_and_subtotal_witness :
  let result :=
    post_sales no_faults "2024-06-01T10:00:00.000Z" cashier
      (cart_request [CartLine.mk 1 2; CartLine.mk 1 1]) (disk1 5) in
  ∃ sale,
    result.2 = mkResponse 201 (SaleBody sale)
    ∧ Sale.subtotal sale = 30%float
    ∧ Forall2 (line_priced [product1 5]) [CartLine.mk 1 2; CartLine.mk 1 1]
        (Sale.items sale).
Proof.
  eexists. split; [reflexivity|]. split; [reflexivity|].
  eapply (sale_lines_and_subtotal no_faults "2024-06-01T10:00:00.000Z" cashier
            (cart_request [CartLine.mk 1 2; CartLine.mk 1 1]) (disk1 5)).
  reflexivity.
Defined.

Lemma price_items_not_found products before item rest subtotal saleItems :
  Forall (line_in_stock products) before →
  Array_find (λ p, Product.id p = CartLine.productId item) products = None →
  price_items products (before ++ item :: rest) subtotal saleItems
  = inl (mkResponse 400 (Message
           ("Product with ID " +:+ pretty (CartLine.productId item) +:+ " not found"))).
Proof.
  intros Hbefore Hfind. revert subtotal saleItems.
  induction Hbefore as [|line before (p & Hp & Hle) _ IH]; intros subtotal saleItems; simpl.
  - by rewrite Hfind.
  - rewrite Hp. apply Z.ltb_ge in Hle. rewrite Hle. apply IH.
Qed.

(** X2.  A commit with a line that names no product on file, the lines before it
    being in stock, is answered 400 with the message 'Product with ID',
    the id in decimal, 'not found'; the data files are left as they are,
    whatever the lines after it. *)
Theorem product_not_found_response faults now user req d before item rest :
  validationResult_isEmpty req = true →
  SaleRequest.items req = before ++ item :: rest →
  Forall (line_in_stock (products_json d)) before →
  Array_find (λ p, Product.id p = CartLine.productId item) (products_json d) = None →
  post_sales faults now user req d
  = (d, mkResponse 400 (Message
          ("Product with ID " +:+ pretty (CartLine.productId item) +:+ " not found"))).
Proof.
  intros Hvalid Hitems Hbefore Hfind.
  unfold post_sales. rewrite Hvalid, Hitems. simpl.
  by rewrite price_items_not_found.
Qed.

Lemma product_not_found_response_witness :
  post_sales no_faults "2024-06-01T10:00:00.000Z" cashier
    (cart_request [CartLine.mk 1 2; CartLine.mk (-7) 1; CartLine.mk 1 9]) (disk1 5)
  = (disk1 5, mkResponse 400 (Message "Product with ID -7 not found")).
Proof.
  apply (product_not_found_response no_faults "2024-06-01T10:00:00.000Z" cashier
           (cart_request [CartLine.mk 1 2; CartLine.mk (-7) 1; CartLine.mk 1 9])
           (disk1 5) [CartLine.mk 1 2] (CartLine.mk (-7) 1) [CartLine.mk 1 9]).
  - reflexivity.
  - reflexivity.
  - constructor; [|constructor]. exists (product1 5). split; [reflexivity|]. simpl. lia.
  - reflexivity.
Defined.

Lemma update_stock_catalog_data now items : ∀ products products',
  update_stock now products items = Some products' →
  catalog_data <$> products' = catalog_data <$> products.
Proof.
  induction items as [|item rest IH]; intros products products'; simpl.
  { by intros [= ->]. }
  destruct (Array_findIndex _ products) as [i|]; [|done].
  intros ->%IH.
  rewrite (list_fmap_alter catalog_data _ id).
  - apply list_eq. intros j. rewrite list_lookup_alter.
    case_decide; [subst|done]. by destruct (_ !! j).
  - by apply Forall_true.
Qed.

Lemma post_sales_catalog_data faults now user req d :
  categories_json (post_sales faults now user req d).1 = categories_json d
  ∧ catalog_data <$> products_json (post_sales faults now user req d).1
    = catalog_data <$> products_json d.
Proof.
  destruct (post_sales_outcome faults now user req d)
    as [response ?| ? | ? | products' priced ? ? ? Hprice Hupd
       | products' subtotal saleItems ? ? ? Hprice Hupd]; simpl; try done.
  all: split; [done | by eapply update_stock_catalog_data].
Qed.

(** X3.  Whatever its outcome, a commit leaves the categories as they are and
    changes nothing of a product but its stock and its date of last update:
    ids, names, SKUs, categories, prices, reorder points and descriptions
    stay, in the same order. *)
Theorem post_sales_keeps_catalog_data faults now user req d :
  let d' := (post_sales faults now user req d).1 in
  categories_json d' = categories_json d
  ∧ catalog_data <$> products_json d' = catalog_data <$> products_json d.
Proof. apply post_sales_catalog_data. Qed.

(** ** Product routes *)

Lemma post_products_cases throws now req d :
  let result := post_products throws now req d in
  (result.1 = d ∧ reply_status result.2 ≠ 201)
  ∨ (product_validationResult_isEmpty req = true
     ∧ Array_find (λ p, Product.sku p = ProductRequest.sku req) (products_json d) = None
     ∧ result
       = (store (ProductsFile (products_json d ++ [newProduct (products_json d) req now])) d,
          ReplyJson 201 (newProduct (products_json d) req now))).
Proof.
  simpl. unfold post_products.
  destruct (product_validationResult_isEmpty req); simpl; [|by left].
  destruct (Array_find _ (products_json d)); [by left|].
  destruct throws; simpl; [by left | by right].
Qed.

Lemma put_products_cases throws now productId req d :
  let result := put_products throws now productId req d in
  (result.1 = d ∧ reply_status result.2 ≠ 200)
  ∨ ∃ productIndex old,
      product_validationResult_isEmpty req = true
      ∧ list_find (λ p, Product.id p = productId) (products_json d)
        = Some (productIndex, old)
      ∧ Array_find (λ p, Product.sku p = ProductRequest.sku req
                         ∧ Product.id p ≠ productId) (products_json d) = None
      ∧ result
        = (store (ProductsFile
                    (<[productIndex := updatedProduct old req now]> (products_json d))) d,
           ReplyJson 200 (updatedProduct old req now)).
Proof.
  simpl. unfold put_products.
  destruct (product_validationResult_isEmpty req); simpl; [|by left].
  destruct (list_find _ (products_json d)) as [[productIndex old]|]; [|by left].
  destruct (Array_find _ (products_json d)); [by left|].
  destruct throws; simpl; [by left | right; by eexists _, _].
Qed.

Lemma delete_products_cases throws productId d :
  let result := delete_products throws productId d in
  (result.1 = d ∧ reply_status result.2 ≠ 200)
  ∨ (Exists (λ p, Product.id p = productId) (products_json d)
     ∧ result
       = (store (ProductsFile (filter (λ p, Product.id p ≠ productId) (products_json d))) d,
          ReplyMessage 200 "Product deleted successfully")).
Proof.
  simpl. unfold delete_products.
  case_decide as Hlen; [by left|].
  destruct throws; simpl; [by left|]. right. split; [|done].
  destruct (decide (Exists (λ p, Product.id p = productId) (products_json d)))
    as [|Hnone]; [done|].
  exfalso. apply Hlen. f_equal.
  apply not_Exists_Forall in Hnone; [|apply _]. clear Hlen.
  induction Hnone as [|p l Hp _ IH]; [done|].
  rewrite filter_cons_True by done. by rewrite IH.
Qed.

Lemma post_products_created throws now req d d' product :
  post_products throws now req d = (d', ReplyJson 201 product) →
  products_json d' = products_json d ++ [product]
  ∧ categories_json d' = categories_json d
  ∧ sales_json d' = sales_json d
  ∧ 1 ≤ Product.id product
  ∧ (∀ p, p ∈ products_json d → Product.id p < Product.id product)
  ∧ Product.sku product = ProductRequest.sku req
  ∧ 0 ≤ Product.stock product
  ∧ Array_find (λ p, Product.id p = Product.id product) (products_json d') = Some product
  ∧ ∀ id, id ≠ Product.id product →
          Array_find (λ p, Product.id p = id) (products_json d')
          = Array_find (λ p, Product.id p = id) (products_json d).
Proof.
  intros Hpost.
  destruct (post_products_cases throws now req d) as [[_ Hst]|(Hvalid & Hsku & Heq)];
    simpl in *; rewrite Hpost in *; [done|].
  injection Heq as -> ->. simpl.
  pose proof (Math_max_0_upper (Product.id <$> products_json d)) as Hupper.
  pose proof (Math_max_0_nonneg (Product.id <$> products_json d)) as Hnonneg.
  assert (∀ p, p ∈ products_json d →
               Product.id p < Math_max_0 (Product.id <$> products_json d) + 1) as Hlt.
  { intros p Hp. eapply Forall_forall in Hupper; [|by apply list_elem_of_fmap_2].
    simpl in Hupper. lia. }
  split_and!; try done.
  - lia.
  - unfold product_validationResult_isEmpty in Hvalid.
    apply andb_prop in Hvalid as [Hvalid _]. apply andb_prop in Hvalid as [_ Hstock].
    by apply Z.leb_le.
  - rewrite Array_find_app.
    assert (Array_find
              (λ p, Product.id p = Math_max_0 (Product.id <$> products_json d) + 1)
              (products_json d) = None) as ->.
    { apply Array_find_None, Forall_forall. intros p Hp%Hlt. lia. }
    by rewrite Array_find_cons, decide_True.
  - intros id Hid.
    rewrite Array_find_app, Array_find_cons, decide_False by (simpl; congruence).
    by destruct (Array_find (λ p, Product.id p = id) (products_json d)).
Qed.

(** X4.  A product that [POST /api/products] creates is appended to the file
    with an id that is at least 1 and greater than every id on file, with the
    fields of the request; a lookup by its id then returns it, and lookups by
    other ids return what they did. *)
Theorem post_products_fresh_id throws now req d d' product :
  post_products throws now req d = (d', ReplyJson 201 product) →
  products_json d' = products_json d ++ [product]
  ∧ categories_json d' = categories_json d
  ∧ sales_json d' = sales_json d
  ∧ 1 ≤ Product.id product
  ∧ (∀ p, p ∈ products_json d → Product.id p < Product.id product)
  ∧ Product.sku product = ProductRequest.sku req
  ∧ 0 ≤ Product.stock product
  ∧ Array_find (λ p, Product.id p = Product.id product) (products_json d') = Some product
  ∧ ∀ id, id ≠ Product.id product →
          Array_find (λ p, Product.id p = id) (products_json d')
          = Array_find (λ p, Product.id p = id) (products_json d).
Proof. apply post_products_created. Qed.

Lemma post_products_fresh_id_witness :
  let result :=
    post_products false "2024-06-01T10:00:00.000Z" (product_request "Mug" "MG001" 9)
      catalog2 in
  ∃ product,
    result.2 = ReplyJson 201 product
    ∧ Product.id product = 3
    ∧ Array_find (λ p, Product.id p = 3) (products_json result.1) = Some product.
Proof.
  eexists. split; [reflexivity|]. split; [reflexivity|].
  pose proof (post_products_fresh_id false "2024-06-01T10:00:00.000Z"
                (product_request "Mug" "MG001" 9) catalog2 _ _ eq_refl)
    as (_ & _ & _ & _ & _ & _ & _ & Hfind & _).
  exact Hfind.
Defined.

Lemma NoDup_insert_fresh {A} (l : list A) i x :
  NoDup l →
  (∀ j y, j ≠ i → l !! j = Some y → y ≠ x) →
  NoDup (<[i:=x]> l).
Proof.
  rewrite !NoDup_alt. intros Hnodup Hfresh a b v Ha Hb.
  rewrite list_lookup_insert in Ha, Hb.
  destruct (decide (i = a ∧ (i < length l)%nat)) as [[Hia _]|Hna];
    destruct (decide (i = b ∧ (i < length l)%nat)) as [[Hib _]|Hnb].
  - congruence.
  - injection Ha as <-. destruct (decide (b = i)) as [|Hne]; [congruence|].
    exfalso. by eapply (Hfresh b x).
  - injection Hb as <-. destruct (decide (a = i)) as [|Hne]; [congruence|].
    exfalso. by eapply (Hfresh a x).
  - by eapply Hnodup.
Qed.

Lemma catalog_data_ids (l l' : list Product.t) :
  catalog_data <$> l' = catalog_data <$> l →
  Product.id <$> l' = Product.id <$> l ∧ Product.sku <$> l' = Product.sku <$> l.
Proof.
  intros Heq. split.
  - apply (f_equal (fmap (λ t : Z * string * string * Z * float * Z * string,
                            t.1.1.1.1.1.1))) in Heq.
    by rewrite <- !list_fmap_compose in Heq.
  - apply (f_equal (fmap (λ t : Z * string * string * Z * float * Z * string,
                            t.1.1.1.1.2))) in Heq.
    by rewrite <- !list_fmap_compose in Heq.
Qed.

Lemma catalog_ok_post_sales faults now user req d :
  catalog_ok (products_json d) →
  catalog_ok (products_json (post_sales faults now user req d).1).
Proof.
  intros [Hids Hskus].
  destruct (post_sales_catalog_data faults now user req d) as [_ Hdata].
  apply catalog_data_ids in Hdata as [Hi Hs].
  unfold catalog_ok. by rewrite Hi, Hs.
Qed.

Lemma catalog_ok_post_products throws now req d :
  catalog_ok (products_json d) →
  catalog_ok (products_json (post_products throws now req d).1).
Proof.
  intros [Hids Hskus].
  destruct (post_products_cases throws now req d) as [[-> _]|(_ & Hsku & ->)]; [done|].
  simpl. unfold catalog_ok. rewrite !fmap_app. simpl. split.
  - apply NoDup_app. split_and!; [done| |apply NoDup_singleton].
    intros id Hid ->%list_elem_of_singleton.
    pose proof (Math_max_0_upper (Product.id <$> products_json d)) as Hupper.
    eapply Forall_forall in Hupper; [|done]. simpl in Hupper. lia.
  - apply NoDup_app. split_and!; [done| |apply NoDup_singleton].
    intros sku (p & -> & Hp)%list_elem_of_fmap Heq%list_elem_of_singleton.
    apply Array_find_None in Hsku. by eapply Forall_forall in Hsku.
Qed.

Lemma catalog_ok_put_products throws now productId req d :
  catalog_ok (products_json d) →
  catalog_ok (products_json (put_products throws now productId req d).1).
Proof.
  intros [Hids Hskus].
  destruct (put_products_cases throws now productId req d)
    as [[-> _]|(i & old & _ & Hfind & Hsku & ->)]; [done|].
  apply list_find_Some in Hfind as (Hi & Hid & _).
  simpl. unfold catalog_ok. rewrite !list_fmap_insert. simpl. split.
  - rewrite list_insert_id; [done|]. by rewrite list_lookup_fmap, Hi.
  - apply NoDup_insert_fresh; [done|].
    intros j sku Hj Hlookup ->.
    rewrite list_lookup_fmap in Hlookup.
    destruct (products_json d !! j) as [p|] eqn:Hp; [|done].
    injection Hlookup as Hsame.
    apply Array_find_None in Hsku.
    eapply Forall_forall in Hsku; [|by eapply list_elem_of_lookup_2].
    apply Hsku. split; [done|]. intros Hsameid. apply Hj.
    pose proof (proj1 (NoDup_alt _) Hids) as Hinj. apply (Hinj j i productId).
    + by rewrite list_lookup_fmap, Hp, <- Hsameid.
    + by rewrite list_lookup_fmap, Hi, <- Hid.
Qed.

Lemma catalog_ok_delete_products throws productId d :
  catalog_ok (products_json d) →
  catalog_ok (products_json (delete_products throws productId d).1).
Proof.
  intros [Hids Hskus].
  destruct (delete_products_cases throws productId d) as [[-> _]|(_ & ->)]; [done|].
  simpl. split.
  - eapply sublist_NoDup; [exact Hids|]. apply fmap_sublist, sublist_filter.
  - eapply sublist_NoDup; [exact Hskus|]. apply fmap_sublist, sublist_filter.
Qed.

Lemma requireRole_cases {A} roles user (next : Disk → Disk * Reply A) d :
  (User.role user ∈ roles ∧ requireRole roles user next d = next d)
  ∨ ((User.role user ∉ roles)
     ∧ requireRole roles user next d = (d, ReplyMessage 403 "Insufficient permissions")).
Proof. unfold requireRole. case_decide; [by left | by right]. Qed.

Lemma post_categories_products toLowerCase throws now name description d :
  products_json (post_categories toLowerCase throws now name description d).1
  = products_json d
  ∧ sales_json (post_categories toLowerCase throws now name description d).1
    = sales_json d.
Proof.
  unfold post_categories. destruct (String.eqb name ""); [done|].
  destruct (Array_find _ (categories_json d)); [done|]. by destruct throws.
Qed.

Lemma delete_categories_products throws categoryId d :
  products_json (delete_categories throws categoryId d).1 = products_json d
  ∧ sales_json (delete_categories throws categoryId d).1 = sales_json d.
Proof.
  unfold delete_categories. case_decide; [done|]. case_decide; [done|].
  by destruct throws.
Qed.

(** X5.  Through any sequence of calls of the routes, by any users and with any
    write failures, the products keep distinct ids and distinct SKUs once
    they have them. *)
Theorem catalog_stays_ok toLowerCase requests : ∀ d,
  catalog_ok (products_json d) →
  catalog_ok (products_json (fold_left (serve toLowerCase) requests d)).
Proof.
  induction requests as [|[[now user] call] requests IH]; intros d Hok; [done|].
  simpl. apply IH. clear IH.
  destruct call as [faults req|throws req|throws productId req|throws productId
                   |throws name description|throws categoryId].
  - by apply catalog_ok_post_sales.
  - destruct (requireRole_cases ["ADMIN"] user (post_products throws now req) d)
      as [[_ ->]|[_ ->]]; [by apply catalog_ok_post_products | done].
  - destruct (requireRole_cases ["ADMIN"] user (put_products throws now productId req) d)
      as [[_ ->]|[_ ->]]; [by apply catalog_ok_put_products | done].
  - destruct (requireRole_cases ["ADMIN"] user (delete_products throws productId) d)
      as [[_ ->]|[_ ->]]; [by apply catalog_ok_delete_products | done].
  - destruct (requireRole_cases ["ADMIN"] user
                (post_categories toLowerCase throws now name description) d)
      as [[_ ->]|[_ ->]]; [|done].
    by rewrite (proj1 (post_categories_products _ _ _ _ _ _)).
  - destruct (requireRole_cases ["ADMIN"] user (delete_categories throws categoryId) d)
      as [[_ ->]|[_ ->]]; [|done].
    by rewrite (proj1 (delete_categories_products _ _ _)).
Qed.

Lemma catalog_stays_ok_witness :
  catalog_ok
    (products_json
       (fold_left (serve ascii_toLowerCase)
          [("t1", admin, PostProducts false (product_request "Mug" "MG001" 9));
           ("t2", admin, PutProducts false 1 (product_request "Phone 2" "SP001" 1));
           ("t3", cashier, PostSales no_faults (cart_request [CartLine.mk 3 2]));
           ("t4", admin, DeleteProducts false 2)]
          catalog2)).
Proof.
  apply catalog_stays_ok.
  split; apply (bool_decide_unpack _); by vm_compute.
Defined.

Lemma Array_find_insert_first {A} (P : A → Prop) `{∀ x, Decision (P x)}
    (l : list A) : ∀ i y,
  (∀ j z, l !! j = Some z → (j < i)%nat → ¬ P z) →
  (i < length l)%nat →
  P y →
  Array_find P (<[i:=y]> l) = Some y.
Proof.
  induction l as [|a l IH]; intros i y Hmin Hlen Hy; simpl in *; [lia|].
  destruct i as [|i]; simpl.
  - by rewrite Array_find_cons, decide_True.
  - rewrite Array_find_cons, decide_False.
    + apply IH; [|lia|done]. intros j z Hj Hlt. apply (Hmin (S j) z); [done | lia].
    + apply (Hmin 0%nat a); [done | lia].
Qed.

Lemma Array_find_insert_other {A} (Q : A → Prop) `{∀ x, Decision (Q x)}
    (l : list A) : ∀ i x y,
  l !! i = Some x → ¬ Q x → ¬ Q y →
  Array_find Q (<[i:=y]> l) = Array_find Q l.
Proof.
  induction l as [|a l IH]; intros i x y Hi Hx Hy; [done|].
  destruct i as [|i]; simpl in *.
  - injection Hi as ->. by rewrite !Array_find_cons, !decide_False.
  - rewrite !Array_find_cons. case_decide; [done|]. by eapply IH.
Qed.

(** X6.  A product that [PUT /api/products/:id] has updated keeps its id and its
    place; it has the fields of the request, the stock included, and its old
    description when the request has none.  A lookup by its id returns it, and
    lookups by other ids return what they did. *)
Theorem put_products_round_trip throws now productId req d d' product :
  put_products throws now productId req d = (d', ReplyJson 200 product) →
  (∃ old,
     Array_find (λ p, Product.id p = productId) (products_json d) = Some old
     ∧ product = updatedProduct old req now
     ∧ (truthy_string (ProductRequest.description req) = None →
        Product.description product = Product.description old))
  ∧ Product.id product = productId
  ∧ Product.stock product = ProductRequest.stock req
  ∧ Product.id <$> products_json d' = Product.id <$> products_json d
  ∧ categories_json d' = categories_json d
  ∧ sales_json d' = sales_json d
  ∧ Array_find (λ p, Product.id p = productId) (products_json d') = Some product
  ∧ ∀ id, id ≠ productId →
          Array_find (λ p, Product.id p = id) (products_json d')
          = Array_find (λ p, Product.id p = id) (products_json d).
Proof.
  intros Hput.
  destruct (put_products_cases throws now productId req d)
    as [[_ Hst]|(i & old & _ & Hfind & _ & Heq)]; simpl in *; rewrite Hput in *; [done|].
  injection Heq as -> ->. simpl.
  pose proof Hfind as (Hi & Hid & Hmin)%list_find_Some.
  split_and!; try done.
  - exists old. split_and!; [|done|].
    + unfold Array_find. by rewrite Hfind.
    + intros Hnone. simpl. by rewrite Hnone.
  - rewrite list_fmap_insert. simpl.
    apply list_insert_id. by rewrite list_lookup_fmap, Hi.
  - apply Array_find_insert_first; [done| |done]. by eapply lookup_lt_Some.
  - intros id Hne. eapply Array_find_insert_other; [done| |]; simpl; congruence.
Qed.

Lemma put_products_round_trip_witness :
  let result :=
    put_products false "2024-06-01T10:00:00.000Z" 1 (product_request "Phone 2" "SP002" 2)
      catalog2 in
  ∃ product,
    result.2 = ReplyJson 200 product
    ∧ Product.description product = "smart"
    ∧ Array_find (λ p, Product.id p = 1) (products_json result.1) = Some product.
Proof.
  eexists. split; [reflexivity|]. split; [reflexivity|].
  pose proof (put_products_round_trip false "2024-06-01T10:00:00.000Z" 1
                (product_request "Phone 2" "SP002" 2) catalog2 _ _ eq_refl)
    as (_ & _ & _ & _ & _ & _ & Hfind & _).
  exact Hfind.
Defined.

(** X7.  With distinct SKUs on file, an update that keeps the SKU of the product
    is not taken for a conflict: it is answered 200. *)
Theorem put_products_keeps_own_sku now productId req d productIndex old :
  NoDup (Product.sku <$> products_json d) →
  product_validationResult_isEmpty req = true →
  list_find (λ p, Product.id p = productId) (products_json d) = Some (productIndex, old) →
  ProductRequest.sku req = Product.sku old →
  (put_products false now productId req d).2
  = ReplyJson 200 (updatedProduct old req now).
Proof.
  intros Hskus Hvalid Hfind Hsame.
  unfold put_products. rewrite Hvalid, Hfind. simpl.
  assert (Array_find (λ p, Product.sku p = ProductRequest.sku req
                           ∧ Product.id p ≠ productId) (products_json d) = None) as ->;
    [|done].
  apply Array_find_None, Forall_forall. intros p Hp [Hsku Hid].
  apply list_find_Some in Hfind as (Hi & Hold & _).
  apply list_elem_of_lookup in Hp as [j Hj].
  pose proof (proj1 (NoDup_alt _) Hskus) as Hinj.
  assert (j = productIndex) as ->.
  { apply (Hinj j productIndex (Product.sku old)).
    - by rewrite list_lookup_fmap, Hj, <- Hsame, <- Hsku.
    - by rewrite list_lookup_fmap, Hi. }
  congruence.
Qed.

Lemma put_products_keeps_own_sku_witness :
  reply_status
    (put_products false "2024-06-01T10:00:00.000Z" 2 (product_request "Polo" "TS001" 2)
       catalog2).2
  = 200.
Proof.
  rewrite (put_products_keeps_own_sku "2024-06-01T10:00:00.000Z" 2
             (product_request "Polo" "TS001" 2) catalog2 1%nat
             (Product.mk 2 "Shirt" "TS001" 2 10%float 98 20 "" "")).
  - reflexivity.
  - apply (bool_decide_unpack _). by vm_compute.
  - reflexivity.
  - reflexivity.
  - reflexivity.
Defined.

(** X8.  [DELETE /api/products/:id] answers 404 and leaves the files when no
    product has the id.  When it answers 200, a lookup by the id finds
    nothing, lookups by other ids return what they did, and the sales on file,
    the lines of the deleted product included, are as they were. *)
Theorem delete_products_lookup throws productId d :
  let result := delete_products throws productId d in
  (Array_find (λ p, Product.id p = productId) (products_json d) = None →
   result = (d, ReplyMessage 404 "Product not found"))
  ∧ (reply_status result.2 = 200 →
     Array_find (λ p, Product.id p = productId) (products_json result.1) = None
     ∧ (∀ id, id ≠ productId →
              Array_find (λ p, Product.id p = id) (products_json result.1)
              = Array_find (λ p, Product.id p = id) (products_json d))
     ∧ sales_json result.1 = sales_json d
     ∧ categories_json result.1 = categories_json d).
Proof.
  simpl. split.
  - intros Hnone%Array_find_None. unfold delete_products.
    rewrite decide_True; [done|]. f_equal.
    induction Hnone as [|p l Hp _ IH]; [done|].
    rewrite filter_cons_True by done. by rewrite IH.
  - destruct (delete_products_cases throws productId d) as [[_ Hst]|(_ & ->)]; [done|].
    simpl. intros _. split_and!; try done.
    + apply Array_find_None, Forall_forall. by intros p [? _]%list_elem_of_filter.
    + intros id Hne. apply Array_find_filter. congruence.
Qed.

Lemma delete_products_lookup_witness :
  delete_products false 9 catalog2 = (catalog2, ReplyMessage 404 "Product not found")
  ∧ Array_find (λ p, Product.id p = 1)
      (products_json (delete_products false 1 catalog2).1) = None.
Proof.
  split.
  - apply (delete_products_lookup false 9 catalog2). reflexivity.
  - apply (delete_products_lookup false 1 catalog2). reflexivity.
Defined.

Lemma filter_all {A} (P : A → Prop) `{∀ x, Decision (P x)} (l : list A) :
  Forall P l → filter P l = l.
Proof.
  induction 1 as [|x l Hx _ IH]; [done|].
  by rewrite filter_cons_True, IH.
Qed.

(** X9.  Deleting the product that [POST /api/products] has just created gives
    back the data files exactly as they were before it, so the next product
    created is given the same id again: the id of a deleted product is
    reused. *)
Theorem post_then_delete_restores now req d d1 product :
  post_products false now req d = (d1, ReplyJson 201 product) →
  delete_products false (Product.id product) d1
  = (d, ReplyMessage 200 "Product deleted successfully")
  ∧ ∀ throws now' req' d2 product',
      post_products throws now' req' (delete_products false (Product.id product) d1).1
      = (d2, ReplyJson 201 product') →
      Product.id product' = Product.id product.
Proof.
  intros Hpost.
  destruct (post_products_created false now req d d1 product Hpost)
    as (Hproducts & Hcategories & Hsales & _ & Hlt & _).
  assert (delete_products false (Product.id product) d1
          = (d, ReplyMessage 200 "Product deleted successfully")) as Hdelete.
  { unfold delete_products. rewrite Hproducts.
    rewrite filter_app, filter_cons_False, filter_nil, app_nil_r by (by intros ?).
    rewrite filter_all.
    2: { apply Forall_forall. intros p Hp%Hlt. lia. }
    rewrite decide_False by (rewrite length_app; simpl; lia).
    simpl. destruct d. simpl in *. by rewrite Hcategories, Hsales. }
  split; [done|].
  intros throws now' req' d2 product'. rewrite Hdelete. simpl. intros Hagain.
  destruct (post_products_cases throws now' req' d) as [[_ Hst]|(_ & _ & Heq)];
    simpl in *; rewrite Hagain in *; [done|].
  destruct (post_products_cases false now req d) as [[_ Hst]|(_ & _ & Heq')];
    simpl in *; rewrite Hpost in *; [done|].
  by simplify_eq.
Qed.

Lemma post_then_delete_restores_witness :
  let created :=
    post_products false "2024-06-01T10:00:00.000Z" (product_request "Mug" "MG001" 9)
      catalog2 in
  delete_products false 3 created.1
  = (catalog2, ReplyMessage 200 "Product deleted successfully").
Proof.
  eapply (post_then_delete_restores "2024-06-01T10:00:00.000Z"
            (product_request "Mug" "MG001" 9) catalog2 _
            (newProduct (products_json catalog2) (product_request "Mug" "MG001" 9)
               "2024-06-01T10:00:00.000Z")).
  reflexivity.
Defined.

Lemma filteredSales_of_without_product new_Date startDate endDate productId sales :
  filteredSales_of new_Date startDate endDate (without_product productId <$> sales)
  = without_product productId <$> filteredSales_of new_Date startDate endDate sales.
Proof.
  unfold filteredSales_of.
  destruct (truthy_string startDate) as [s|]; [|done].
  destruct (truthy_string endDate) as [e|]; [|done].
  induction sales as [|sale sales IH]; [done|].
  rewrite fmap_cons, !filter_cons. simpl. rewrite IH.
  by case_decide.
Qed.

Lemma salesByCategory_item_deleted products categories productId salesByCategory item :
  salesByCategory_item (filter (λ p, Product.id p ≠ productId) products) categories
    salesByCategory item
  = if decide (SaleItem.productId item ≠ productId)
    then salesByCategory_item products categories salesByCategory item
    else salesByCategory.
Proof.
  unfold salesByCategory_item. case_decide as Hitem.
  - rewrite Array_find_filter; [done|]. congruence.
  - assert (Array_find (λ p, Product.id p = SaleItem.productId item)
              (filter (λ p, Product.id p ≠ productId) products) = None) as ->; [|done].
    apply Array_find_None, Forall_forall.
    intros p [Hp _]%list_elem_of_filter. congruence.
Qed.

Lemma fold_left_filter_step {S A} (f g : S → A → S) (P : A → Prop)
    `{∀ x, Decision (P x)} (l : list A) (s : S) :
  (∀ s x, g s x = if decide (P x) then f s x else s) →
  fold_left g l s = fold_left f (filter P l) s.
Proof.
  intros Hg. revert s. induction l as [|x l IH]; intros s; [done|].
  rewrite filter_cons. simpl. rewrite Hg. by case_decide; simpl.
Qed.

(** X10.  Once a product is deleted, the analytics over the same sales keep their
    total, their number of transactions and their top products, but the
    breakdown by category is the one of the history without the line items of
    that product: what it sold is no longer counted in any category. *)
Theorem delete_products_analytics new_Date startDate endDate throws productId d :
  let d' := (delete_products throws productId d).1 in
  let before := analytics new_Date startDate endDate d in
  let after := analytics new_Date startDate endDate d' in
  reply_status (delete_products throws productId d).2 = 200 →
  AnalyticsResult.totalSales after = AnalyticsResult.totalSales before
  ∧ AnalyticsResult.totalTransactions after = AnalyticsResult.totalTransactions before
  ∧ AnalyticsResult.topProducts after = AnalyticsResult.topProducts before
  ∧ AnalyticsResult.salesByCategory after
    = AnalyticsResult.salesByCategory
        (analytics new_Date startDate endDate
           (mkDisk (products_json d) (categories_json d)
              (without_product productId <$> sales_json d))).
Proof.
  simpl.
  destruct (delete_products_cases throws productId d) as [[_ Hst]|(_ & ->)]; [done|].
  intros _. simpl. unfold analytics. simpl. split_and!; try done.
  rewrite filteredSales_of_without_product.
  generalize (filteredSales_of new_Date startDate endDate (sales_json d)).
  intros sales. unfold forEach_item. generalize (∅ : gmap string float).
  induction sales as [|sale sales IH]; intros m; [done|]. simpl.
  rewrite IH. f_equal. apply fold_left_filter_step.
  intros s item. apply salesByCategory_item_deleted.
Qed.

Lemma delete_products_analytics_witness :
  let d' := (delete_products false 1 scenario_disk).1 in
  AnalyticsResult.salesByCategory (analytics scenario_Date None None d')
  = {["Clothing" := 20%float]}
  ∧ AnalyticsResult.totalSales (analytics scenario_Date None None d') = 75%float.
Proof.
  destruct (delete_products_analytics scenario_Date None None false 1 scenario_disk
              eq_refl) as (Htotal & _ & _ & Hcategories).
  split.
  - rewrite Hcategories. by vm_compute.
  - rewrite Htotal. reflexivity.
Defined.

(** ** Category routes *)

(** X11.  [POST /api/categories] refuses a name that a category on file has up to
    case (400, files untouched).  A category it creates is appended, active,
    with the name as given and an id above every id on file; category names
    that were distinct up to case stay so, and so do distinct ids. *)
Theorem post_categories_keeps_names_distinct toLowerCase throws now name description d :
  let result := post_categories toLowerCase throws now name description d in
  (∀ c, c ∈ categories_json d →
        toLowerCase (Category.name c) = toLowerCase name →
        name ≠ "" →
        result = (d, ReplyMessage 400 "Category already exists"))
  ∧ (∀ category,
       result.2 = ReplyJson 201 category →
       categories_json result.1 = categories_json d ++ [category]
       ∧ Category.name category = name
       ∧ Category.status category = "active"
       ∧ ∀ c, c ∈ categories_json d → Category.id c < Category.id category)
  ∧ (names_distinct toLowerCase (categories_json d) →
     names_distinct toLowerCase (categories_json result.1))
  ∧ (NoDup (Category.id <$> categories_json d) →
     NoDup (Category.id <$> categories_json result.1)).
Proof.
  simpl. unfold post_categories.
  pose proof (Math_max_0_upper (Category.id <$> categories_json d)) as Hupper.
  assert (∀ c, c ∈ categories_json d →
               Category.id c < Math_max_0 (Category.id <$> categories_json d) + 1) as Hlt.
  { intros c Hc. eapply Forall_forall in Hupper; [|by apply list_elem_of_fmap_2].
    simpl in Hupper. lia. }
  split_and!.
  - intros c Hc Hsame Hname.
    apply String.eqb_neq in Hname. rewrite Hname.
    destruct (Array_find _ (categories_json d)) eqn:Hfind; [done|].
    apply Array_find_None in Hfind. by eapply Forall_forall in Hfind.
  - intros category. destruct (String.eqb name ""); [done|].
    destruct (Array_find _ (categories_json d)); [done|].
    destruct throws; simpl; [done|]. by intros [= <-].
  - intros Hnames. destruct (String.eqb name ""); [done|].
    destruct (Array_find _ (categories_json d)) eqn:Hfind; [done|].
    destruct throws; simpl; [done|].
    unfold names_distinct. rewrite fmap_app. simpl.
    apply NoDup_app. split_and!; [done| |apply NoDup_singleton].
    intros lower (c & -> & Hc)%list_elem_of_fmap Heq%list_elem_of_singleton.
    apply Array_find_None in Hfind. by eapply Forall_forall in Hfind.
  - intros Hids. destruct (String.eqb name ""); [done|].
    destruct (Array_find _ (categories_json d)); [done|].
    destruct throws; simpl; [done|].
    rewrite fmap_app. simpl.
    apply NoDup_app. split_and!; [done| |apply NoDup_singleton].
    intros id (c & -> & Hc%Hlt)%list_elem_of_fmap Heq%list_elem_of_singleton. lia.
Qed.

Lemma post_categories_keeps_names_distinct_witness :
  post_categories ascii_toLowerCase false "2024-06-01T10:00:00.000Z" "CLOTHING" None
    catalog2
  = (catalog2, ReplyMessage 400 "Category already exists")
  ∧ names_distinct ascii_toLowerCase
      (categories_json
         (post_categories ascii_toLowerCase false "2024-06-01T10:00:00.000Z" "Books"
            None catalog2).1).
Proof.
  split.
  - apply (proj1 (post_categories_keeps_names_distinct ascii_toLowerCase false
                    "2024-06-01T10:00:00.000Z" "CLOTHING" None catalog2)
             (Category.mk 2 "Clothing" "" "inactive" "")).
    + apply list_elem_of_further, list_elem_of_here.
    + reflexivity.
    + discriminate.
  - apply (post_categories_keeps_names_distinct ascii_toLowerCase false
             "2024-06-01T10:00:00.000Z" "Books" None catalog2).
    apply (bool_decide_unpack _). by vm_compute.
Defined.

(** X12.  [DELETE /api/categories/:id] never changes the category that a product
    is listed with: the answer of [GET /api/products] is the same after it as
    before.  It refuses (400) a category that a product names, answers 404
    for an id that no category has, and after a 200 a lookup by the id finds
    nothing while lookups by other ids return what they did. *)
Theorem delete_categories_keeps_references throws categoryId d :
  let result := delete_categories throws categoryId d in
  get_products result.1 = get_products d
  ∧ (Exists (λ p, Product.categoryId p = categoryId) (products_json d) →
     result = (d, ReplyMessage 400 "Cannot delete category with existing products"))
  ∧ (¬ Exists (λ p, Product.categoryId p = categoryId) (products_json d) →
     Array_find (λ c, Category.id c = categoryId) (categories_json d) = None →
     result = (d, ReplyMessage 404 "Category not found"))
  ∧ (reply_status result.2 = 200 →
     Array_find (λ c, Category.id c = categoryId) (categories_json result.1) = None
     ∧ ∀ id, id ≠ categoryId →
             Array_find (λ c, Category.id c = id) (categories_json result.1)
             = Array_find (λ c, Category.id c = id) (categories_json d)).
Proof.
  simpl. unfold delete_categories.
  destruct (decide (Exists (λ p, Product.categoryId p = categoryId) (products_json d)))
    as [Hused|Hfree]; [by split_and!|].
  split_and!.
  - case_decide; [done|]. destruct throws; simpl; [done|].
    unfold get_products. simpl.
    apply list_fmap_ext. intros i p Hp. f_equal.
    rewrite Array_find_filter; [done|].
    intros c Hc Hdeleted. apply Hfree. apply Exists_exists. exists p.
    split; [by eapply list_elem_of_lookup_2 | congruence].
  - done.
  - intros _ Hnone%Array_find_None.
    rewrite decide_True; [done|]. f_equal. by apply filter_all.
  - case_decide; [done|]. destruct throws; simpl; [done|]. intros _. split.
    + apply Array_find_None, Forall_forall. by intros c [? _]%list_elem_of_filter.
    + intros id Hne. apply Array_find_filter. congruence.
Qed.

Lemma delete_categories_keeps_references_witness :
  delete_categories false 2 catalog2
  = (catalog2, ReplyMessage 400 "Cannot delete category with existing products")
  ∧ delete_categories false 5 catalog2 = (catalog2, ReplyMessage 404 "Category not found").
Proof.
  split.
  - apply (delete_categories_keeps_references false 2 catalog2).
    apply Exists_cons_tl, Exists_cons_hd. reflexivity.
  - apply (delete_categories_keeps_references false 5 catalog2); [|reflexivity].
    apply (bool_decide_unpack _). by vm_compute.
Defined.

(** ** Dashboard *)

Lemma sort_insert_ext {A} (cmp cmp' : A → A → Z) x (l : list A) :
  Forall (λ y, cmp x y = cmp' x y) l →
  sort_insert cmp x l = sort_insert cmp' x l.
Proof.
  induction 1 as [|y l Hy _ IH]; simpl; [done|].
  rewrite Hy, IH. done.
Qed.

(** A sort looks at its comparator on the elements of the array only. *)
Lemma Array_sort_ext {A} (cmp cmp' : A → A → Z) (l : list A) :
  (∀ x y, x ∈ l → y ∈ l → cmp x y = cmp' x y) →
  Array_sort cmp l = Array_sort cmp' l.
Proof.
  induction l as [|x l IH]; intros Hsame; simpl; [done|].
  rewrite IH.
  2: { intros a b Ha Hb. apply Hsame; by apply list_elem_of_further. }
  apply sort_insert_ext, Forall_forall. intros y Hy.
  rewrite Array_sort_Permutation in Hy.
  apply Hsame; [apply list_elem_of_here | by apply list_elem_of_further].
Qed.

(** X13.  On a history of valid dates, [recentSales] lists the 10 most recent
    sales, fewer when the history is shorter, the most recent first: it is in
    descending order of date, and every sale that it leaves out is no more
    recent than any that it lists. *)
Theorem dashboard_recent_sales new_Date d :
  Forall (λ sale, is_Some (new_Date (Sale.createdAt sale))) (sales_json d) →
  let recentSales := DashboardStats.recentSales (dashboard_stats new_Date d) in
  StronglySorted (λ a b, sale_time new_Date b ≤ sale_time new_Date a) recentSales
  ∧ length recentSales = (10 `min` length (sales_json d))%nat
  ∧ ∃ older,
      recentSales ++ older ≡ₚ sales_json d
      ∧ ∀ a b, a ∈ recentSales → b ∈ older →
               sale_time new_Date b ≤ sale_time new_Date a.
Proof.
  intros Hvalid. simpl.
  set (cmp' := λ a b : Sale.t, sale_time new_Date b - sale_time new_Date a).
  assert (Array_sort (newest_first new_Date) (sales_json d)
          = Array_sort cmp' (sales_json d)) as ->.
  { apply Array_sort_ext. intros a b Ha Hb.
    eapply Forall_forall in Ha; [|done]. eapply Forall_forall in Hb; [|done].
    destruct Ha as [ta Hta], Hb as [tb Htb].
    unfold newest_first, cmp', sale_time. by rewrite Hta, Htb. }
  assert (StronglySorted (sorted_then (λ sale, - sale_time new_Date sale) (λ _ _, True))
            (Array_sort cmp' (sales_json d))) as Hsorted.
  { apply (Array_sort_sorted cmp'); [intros x y; unfold cmp'; lia|].
    apply StronglySorted_trivial. }
  rewrite <- (take_drop 10 (Array_sort cmp' (sales_json d))) in Hsorted.
  apply StronglySorted_app in Hsorted as (Hcross & Htake & _).
  split_and!.
  - eapply (StronglySorted_Forall_impl (λ _, True)); [|by apply Forall_true|exact Htake].
    intros a b _ _ [?|[? _]]; lia.
  - rewrite length_take.
    by rewrite (Permutation_length (Array_sort_Permutation cmp' (sales_json d))).
  - exists (drop 10 (Array_sort cmp' (sales_json d))). split.
    + by rewrite take_drop, Array_sort_Permutation.
    + intros a b Ha Hb. destruct (Hcross a b Ha Hb) as [?|[? _]]; lia.
Qed.

Lemma dashboard_recent_sales_witness :
  Sale.id <$> DashboardStats.recentSales (dashboard_stats scenario_Date scenario_disk)
  = [3; 2; 1]
  ∧ StronglySorted
      (λ a b, sale_time scenario_Date b ≤ sale_time scenario_Date a)
      (DashboardStats.recentSales (dashboard_stats scenario_Date scenario_disk)).
Proof.
  split; [reflexivity|].
  apply (dashboard_recent_sales scenario_Date scenario_disk).
  repeat constructor; by eexists.
Defined.

Lemma post_sales_committed_history faults now user req d d' sale :
  post_sales faults now user req d = (d', mkResponse 201 (SaleBody sale)) →
  sales_json d' = sales_json d ++ [sale].
Proof.
  intros Hpost.
  pose proof (post_sales_outcome faults now user req d) as Hout.
  rewrite Hpost in Hout.
  inversion Hout as [| | | |products' subtotal saleItems ? ? ? Hprice Hupd]; [done|].
  subst sale0. by simplify_eq.
Qed.

Lemma fold_left_totals_snoc (sales : list Sale.t) (sale : Sale.t) :
  fold_left (λ sum s, (sum + Sale.total s)%float) (sales ++ [sale]) 0%float
  = (fold_left (λ sum s, (sum + Sale.total s)%float) sales 0%float
     + Sale.total sale)%float.
Proof. by rewrite fold_left_app. Qed.

(** X14.  The dashboard and the analytics without bounds show the same total of
    sales.  A committed sale whose total is a finite number raises it by
    exactly that total, in the arithmetic of doubles ([JSON.stringify] writes
    a total that is not finite as [null], which the sum then counts as 0: the
    hypothesis sets that case aside), raises the number of transactions by
    one, and leaves the number of products. *)
Theorem committed_sale_raises_totals new_Date faults now user req d d' sale :
  post_sales faults now user req d = (d', mkResponse 201 (SaleBody sale)) →
  PrimFloat.is_finite (Sale.total sale) = true →
  DashboardStats.totalSales (dashboard_stats new_Date d)
  = AnalyticsResult.totalSales (analytics new_Date None None d)
  ∧ DashboardStats.totalSales (dashboard_stats new_Date d')
    = (DashboardStats.totalSales (dashboard_stats new_Date d) + Sale.total sale)%float
  ∧ AnalyticsResult.totalTransactions (analytics new_Date None None d')
    = S (AnalyticsResult.totalTransactions (analytics new_Date None None d))
  ∧ DashboardStats.totalProducts (dashboard_stats new_Date d')
    = DashboardStats.totalProducts (dashboard_stats new_Date d).
Proof.
  intros Hpost _.
  pose proof (post_sales_committed_history _ _ _ _ _ _ _ Hpost) as Hsales.
  destruct (post_sales_catalog_data faults now user req d) as [_ Hdata].
  rewrite Hpost in Hdata. simpl in Hdata.
  split_and!.
  - done.
  - simpl. rewrite Hsales. apply fold_left_totals_snoc.
  - unfold analytics, filteredSales_of. simpl. rewrite Hsales, length_app. simpl. lia.
  - simpl. apply (f_equal length) in Hdata. by rewrite !length_fmap in Hdata.
Qed.

Lemma committed_sale_raises_totals_witness :
  let result :=
    post_sales no_faults "2024-06-01T10:00:00.000Z" cashier
      (SaleRequest.mk [CartLine.mk 1 2] "card" None (Some 5%float) (Some 1.5%float))
      scenario_disk in
  DashboardStats.totalSales (dashboard_stats scenario_Date scenario_disk) = 75%float
  ∧ DashboardStats.totalSales (dashboard_stats scenario_Date result.1) = 121.5%float.
Proof.
  split; [reflexivity|].
  pose proof (committed_sale_raises_totals scenario_Date no_faults
                "2024-06-01T10:00:00.000Z" cashier
                (SaleRequest.mk [CartLine.mk 1 2] "card" None (Some 5%float)
                   (Some 1.5%float))
                scenario_disk _ _ eq_refl eq_refl) as (_ & Hraised & _).
  etransitivity; [exact Hraised | reflexivity].
Defined.

Lemma update_stock_lowers now items : ∀ products products',
  Forall (λ item, 1 ≤ CartLine.quantity item) items →
  update_stock now products items = Some products' →
  Forall2 (λ p p', Product.stock p' ≤ Product.stock p
                    ∧ Product.reorderPoint p' = Product.reorderPoint p)
    products products'.
Proof.
  induction items as [|item rest IH]; intros products products' Hpos; simpl.
  { intros [= ->]. apply Forall2_same_length_lookup. split; [done|].
    intros i x y Hx Hy. by simplify_eq. }
  apply Forall_cons in Hpos as [Hq Hpos].
  destruct (Array_findIndex _ products) as [i|]; [|done].
  intros Hrest%IH; [|done].
  apply Forall2_same_length_lookup in Hrest as [Hlen Hrest].
  rewrite length_alter in Hlen.
  apply Forall2_same_length_lookup. split; [done|].
  intros j p p' Hp Hp'.
  destruct (alter (sell (CartLine.quantity item) now) i products !! j) as [p1|] eqn:Hp1.
  - specialize (Hrest j p1 p' Hp1 Hp') as [Hstock Hreorder].
    rewrite list_lookup_alter in Hp1.
    destruct (decide (i = j)) as [->|].
    + rewrite Hp in Hp1. injection Hp1 as <-. simpl in *. split; [lia | done].
    + by simplify_eq.
  - apply lookup_ge_None in Hp1. rewrite length_alter in Hp1.
    apply lookup_lt_Some in Hp. lia.
Qed.

Lemma length_filter_Forall2 {A} (P : A → Prop) `{∀ x, Decision (P x)}
    (R : A → A → Prop) (l l' : list A) :
  (∀ x y, R x y → P x → P y) →
  Forall2 R l l' →
  (length (filter P l) ≤ length (filter P l'))%nat.
Proof.
  intros Hmono. induction 1 as [|x y l l' Hxy _ IH]; [done|].
  rewrite !filter_cons. destruct (decide (P x)) as [HP|HP].
  - rewrite decide_True by eauto. simpl. lia.
  - case_decide; simpl; lia.
Qed.

(** X15.  A commit never takes a product off the low-stock count of the dashboard:
    whatever its outcome, the number of products whose stock is at or below
    their reorder point is afterwards at least what it was. *)
Theorem sale_keeps_low_stock new_Date faults now user req d :
  (DashboardStats.lowStockCount (dashboard_stats new_Date d)
   ≤ DashboardStats.lowStockCount
       (dashboard_stats new_Date (post_sales faults now user req d).1))%nat.
Proof.
  simpl.
  set (low := λ p, (Product.stock p ≤ Product.reorderPoint p)%Z).
  assert (∀ products',
            validationResult_isEmpty req = true →
            update_stock now (products_json d) (SaleRequest.items req) = Some products' →
            (length (filter low (products_json d)) ≤ length (filter low products'))%nat)
    as Hgrow.
  { intros products' Hvalid Hupd.
    apply (length_filter_Forall2 low
             (λ p p', Product.stock p' ≤ Product.stock p
                      ∧ Product.reorderPoint p' = Product.reorderPoint p)).
    - intros p p' [Hstock Hreorder] Hlow. unfold low in *. lia.
    - eapply update_stock_lowers; [|done].
      unfold validationResult_isEmpty in Hvalid.
      do 3 apply andb_prop in Hvalid as [Hvalid _].
      apply Forall_forall. intros item Hitem.
      rewrite forallb_forall in Hvalid. apply Z.leb_le, Hvalid.
      by apply list_elem_of_In. }
  destruct (post_sales_outcome faults now user req d)
    as [response ?| ? | ? | products' priced ? ? ? Hprice Hupd
       | products' subtotal saleItems ? ? ? Hprice Hupd]; simpl; try done.
  all: by apply Hgrow.
Qed.

(** ** The cart of the Billing page *)

Lemma cart_find_unique (cart : list SaleItem.t) id existing item :
  NoDup (SaleItem.productId <$> cart) →
  Array_find (λ item, SaleItem.productId item = id) cart = Some existing →
  item ∈ cart → SaleItem.productId item = id →
  item = existing.
Proof.
  intros Hnodup [Hin Hid]%Array_find_Some Hitem Hsame.
  apply list_elem_of_lookup in Hin as [i Hi].
  apply list_elem_of_lookup in Hitem as [j Hj].
  pose proof (proj1 (NoDup_alt _) Hnodup) as Hinj.
  assert (i = j) as ->; [|congruence].
  apply (Hinj i j id); by rewrite list_lookup_fmap, ?Hi, ?Hj; simpl; congruence.
Qed.

Lemma cart_map_ids (f : SaleItem.t → SaleItem.t) (cart : list SaleItem.t) :
  (∀ item, SaleItem.productId (f item) = SaleItem.productId item) →
  SaleItem.productId <$> (f <$> cart) = SaleItem.productId <$> cart.
Proof.
  intros Hf. rewrite <- list_fmap_compose. apply list_fmap_ext. intros i item _. apply Hf.
Qed.

(** One action keeps the product ids of the cart distinct. *)
Lemma cart_step_distinct productsData cart a :
  NoDup (SaleItem.productId <$> cart) →
  NoDup (SaleItem.productId <$> BillingCart.step productsData cart a).
Proof.
  intros Hnodup. destruct a as [product|productId change|productId quantity|productId]; simpl.
  - unfold Billing.addToCart.
    destruct (Array_find _ cart) as [existing|] eqn:Hfind.
    + case_match; [done|]. rewrite cart_map_ids; [done|].
      intros item. by case_decide.
    + case_match; [done|]. rewrite fmap_app. simpl.
      apply NoDup_app. split_and!; [done| |apply NoDup_singleton].
      intros id (item & -> & Hitem)%list_elem_of_fmap Heq%list_elem_of_singleton.
      apply Array_find_None in Hfind. by eapply Forall_forall in Hfind.
  - unfold BillingCart.updateQuantity. case_match; [|done].
    rewrite cart_map_ids; [done|]. intros item. by repeat case_match.
  - unfold BillingCart.setQuantity. case_match; [|done]. repeat case_match; try done.
    rewrite cart_map_ids; [done|]. intros item. by case_decide.
  - eapply sublist_NoDup; [done|]. apply fmap_sublist, sublist_filter.
Qed.

(** One action of the page keeps every line on a listed product, with a
    quantity from 1 to its stock. *)
Lemma cart_step_in_stock productsData cart a :
  adds_listed productsData a →
  NoDup (SaleItem.productId <$> cart) →
  Forall (cart_line_ok productsData) cart →
  Forall (cart_line_ok productsData) (BillingCart.step productsData cart a).
Proof.
  intros Hlisted Hnodup Hok.
  destruct a as [product|productId change|productId quantity|productId]; simpl in *.
  - unfold Billing.addToCart.
    destruct (Array_find _ cart) as [existing|] eqn:Hfind.
    + destruct (Z.leb_spec (Product.stock product) (SaleItem.quantity existing)); [done|].
      apply Forall_fmap, Forall_forall. intros item Hitem. simpl.
      pose proof (proj1 (Forall_forall _ _) Hok item Hitem) as (p & Hp & Hq).
      case_decide as Hid; [|by exists p].
      assert (item = existing) as -> by by eapply cart_find_unique.
      exists product. simpl. rewrite Hid. split; [done | lia].
    + destruct (Z.leb_spec (Product.stock product) 0); [done|].
      apply Forall_app. split; [done|]. constructor; [|done].
      exists product. simpl. split; [done | lia].
  - unfold BillingCart.updateQuantity.
    destruct (Array_find _ productsData) as [product|] eqn:Hproduct; [|done].
    apply Forall_fmap, Forall_forall. intros item Hitem. simpl.
    pose proof (proj1 (Forall_forall _ _) Hok item Hitem) as (p & Hp & Hq).
    case_decide as Hid; [|by exists p].
    destruct (Z.leb_spec (SaleItem.quantity item + change) 0); [by exists p|].
    destruct (Z.ltb_spec (Product.stock product) (SaleItem.quantity item + change));
      [by exists p|].
    exists product. simpl. rewrite Hid. split; [done | lia].
  - unfold BillingCart.setQuantity.
    destruct (Array_find _ productsData) as [product|] eqn:Hproduct; [|done].
    destruct (Z.leb_spec quantity 0); [done|].
    destruct (Z.ltb_spec (Product.stock product) quantity); [done|].
    apply Forall_fmap, Forall_forall. intros item Hitem. simpl.
    pose proof (proj1 (Forall_forall _ _) Hok item Hitem) as (p & Hp & Hq).
    case_decide as Hid; [|by exists p].
    exists product. simpl. rewrite Hid. split; [done | lia].
  - unfold BillingCart.removeFromCart.
    apply Forall_forall. intros item [_ Hitem]%list_elem_of_filter.
    by eapply Forall_forall in Hok.
Qed.

Lemma cart_run_in_stock productsData actions :
  Forall (adds_listed productsData) actions →
  NoDup (SaleItem.productId <$> BillingCart.run productsData actions)
  ∧ Forall (cart_line_ok productsData) (BillingCart.run productsData actions).
Proof.
  intros Hlisted. unfold BillingCart.run.
  assert (NoDup (SaleItem.productId <$> ([] : list SaleItem.t))
          ∧ Forall (cart_line_ok productsData) []) as Hstart.
  { split; constructor. }
  revert Hstart. generalize ([] : list SaleItem.t).
  induction Hlisted as [|a actions Ha _ IH]; intros cart [Hnodup Hok]; [done|].
  simpl. apply IH. split.
  - by apply cart_step_distinct.
  - by apply cart_step_in_stock.
Qed.

(** X16.  Whatever the cashier does from an empty cart, by adding listed
    products, changing or typing quantities and removing lines, the cart has
    one line per product at most, and every line asks for at least one unit
    and no more than the stock that the page was given for its product. *)
Theorem cart_stays_in_stock productsData actions :
  Forall (adds_listed productsData) actions →
  let cart := BillingCart.run productsData actions in
  NoDup (SaleItem.productId <$> cart) ∧ Forall (cart_line_ok productsData) cart.
Proof. intros Hlisted. by apply cart_run_in_stock. Qed.

Lemma cart_stays_in_stock_witness :
  let phone := Product.mk 1 "Phone" "SP001" 1 25%float 3 10 "smart" "" in
  let cart :=
    BillingCart.run (products_json catalog2)
      [BillingCart.AddToCart phone; BillingCart.SetQuantity 1 7;
       BillingCart.UpdateQuantity 1 2; BillingCart.UpdateQuantity 1 1;
       BillingCart.AddToCart phone] in
  SaleItem.quantity <$> cart = [3]
  ∧ Forall (cart_line_ok (products_json catalog2)) cart.
Proof.
  split; [reflexivity|].
  apply (cart_stays_in_stock (products_json catalog2)).
  repeat constructor.
Defined.

Lemma price_items_in_stock products items : ∀ subtotal saleItems,
  Forall (line_in_stock products) items →
  ∃ priced, price_items products items subtotal saleItems = inr priced.
Proof.
  induction items as [|item items IH]; intros subtotal saleItems Hlines; simpl.
  { by eexists. }
  apply Forall_cons in Hlines as [(product & -> & Hle) Hlines].
  apply Z.ltb_ge in Hle. rewrite Hle. by apply IH.
Qed.

Lemma requested_distinct (items : list CartLine.t) item :
  NoDup (CartLine.productId <$> items) →
  item ∈ items →
  requested (CartLine.productId item) items = CartLine.quantity item.
Proof.
  induction items as [|line items IH]; simpl; [by intros _ ?%elem_of_nil|].
  intros [Hfresh Hnodup]%NoDup_cons [->|Hin]%elem_of_cons.
  - rewrite decide_True by done.
    assert (requested (CartLine.productId line) items = 0) as ->; [|lia].
    clear IH Hnodup. induction items as [|other items IH]; [done|]. simpl.
    apply not_elem_of_cons in Hfresh as [Hne Hfresh].
    rewrite decide_False by done. by apply IH.
  - rewrite decide_False; [by apply IH|].
    intros Heq. apply Hfresh. rewrite Heq. by apply list_elem_of_fmap_2.
Qed.

(** While the history is short of the argument limit, the handler is the
    one of an engine without limit. *)
Lemma post_sales_within_short argument_limit faults now user req d :
  Z.of_nat (length (sales_json d)) < argument_limit →
  post_sales_within argument_limit faults now user req d
  = post_sales faults now user req d.
Proof.
  intros Hshort. unfold post_sales_within, Math_max_spread.
  rewrite length_fmap. rewrite (proj2 (Z.ltb_lt _ _) Hshort).
  unfold post_sales.
  destruct (validationResult_isEmpty req); simpl; [|done].
  by destruct (price_items _ _ _ _).
Qed.

(** X17.  A cart that the cashier has built on the page from the products now on
    file is submitted with a request that passes the validators, and the
    first loop accepts every line of it.  While the sale history is short of
    the argument limit of the engine, the cart is committed: the answer is
    201, every product of the cart loses exactly the quantity of its line,
    and no stock level that was at or above zero goes below it.  Once the
    history has reached the limit, the answer is 500 and nothing is
    written. *)
Theorem billing_cart_commits argument_limit actions customerName paymentMethod
    discountPercent taxPercent req now user d :
  Forall (adds_listed (products_json d)) actions →
  Billing.onSubmit (BillingCart.run (products_json d) actions) customerName
    paymentMethod discountPercent taxPercent = Some req →
  validationResult_isEmpty req = true →
  stock_nonneg (products_json d) →
  Forall (line_in_stock (products_json d)) (SaleRequest.items req)
  ∧ (Z.of_nat (length (sales_json d)) < argument_limit →
     ∃ d' sale,
       post_sales_within argument_limit no_faults now user req d
       = (d', mkResponse 201 (SaleBody sale))
       ∧ stock_nonneg (products_json d')
       ∧ ∀ item, item ∈ BillingCart.run (products_json d) actions →
                 stock_of (SaleItem.productId item) (products_json d')
                 = (λ stock, stock - SaleItem.quantity item)
                   <$> stock_of (SaleItem.productId item) (products_json d))
  ∧ (argument_limit ≤ Z.of_nat (length (sales_json d)) →
     post_sales_within argument_limit no_faults now user req d = (d, server_error)).
Proof.
  intros Hlisted Hsubmit Hvalid Hnonneg.
  destruct (cart_run_in_stock (products_json d) actions Hlisted) as [Hnodup Hok].
  set (cart := BillingCart.run (products_json d) actions) in *.
  set (line := λ item, CartLine.mk (SaleItem.productId item) (SaleItem.quantity item)).
  assert (SaleRequest.items req = line <$> cart) as Hitems.
  { unfold Billing.onSubmit in Hsubmit. destruct cart; [done|]. by injection Hsubmit as <-. }
  assert (NoDup (CartLine.productId <$> SaleRequest.items req)) as Hdistinct.
  { rewrite Hitems, <- list_fmap_compose. exact Hnodup. }
  assert (Forall (line_in_stock (products_json d)) (SaleRequest.items req)) as Hlines.
  { rewrite Hitems. apply Forall_fmap. eapply Forall_impl; [exact Hok|].
    intros item (p & Hp & Hq). exists p. simpl. split; [done | lia]. }
  destruct (price_items_in_stock (products_json d) (SaleRequest.items req) 0%float []
              Hlines) as [[subtotal saleItems] Hprice].
  split_and!; [done | |].
  - intros Hshort. rewrite post_sales_within_short by done.
    destruct (update_stock_distinct now (SaleRequest.items req) (products_json d)
                Hdistinct Hnonneg Hlines) as (products' & Hupd & Hnonneg').
    assert (∃ d' sale,
              post_sales no_faults now user req d = (d', mkResponse 201 (SaleBody sale))
              ∧ products_json d' = products') as (d' & sale & Hpost & Hd').
    { eexists _, _. unfold post_sales. rewrite Hvalid, Hprice, Hupd. simpl. done. }
    exists d', sale. split_and!; [done | by rewrite Hd' |].
    intros item Hitem.
    rewrite (post_sales_committed_stock _ _ _ _ _ _ _ (SaleItem.productId item) Hpost).
    assert (line item ∈ SaleRequest.items req) as Hin.
    { rewrite Hitems. by apply list_elem_of_fmap_2. }
    pose proof (requested_distinct (SaleRequest.items req) (line item) Hdistinct Hin)
      as Hreq.
    simpl in Hreq. by rewrite Hreq.
  - intros Hlong. unfold post_sales_within, Math_max_spread.
    rewrite Hvalid, Hprice, length_fmap. simpl.
    by rewrite (proj2 (Z.ltb_ge _ _) Hlong).
Qed.

Lemma billing_cart_commits_witness :
  let phone := Product.mk 1 "Phone" "SP001" 1 25%float 3 10 "smart" "" in
  let actions := [BillingCart.AddToCart phone; BillingCart.UpdateQuantity 1 1] in
  let cart := BillingCart.run (products_json catalog2) actions in
  let req :=
    SaleRequest.mk [CartLine.mk 1 2] "cash" (Some "Walk-in Customer")
      (Some (Billing.discountAmount cart 10)) (Some (Billing.taxAmount cart 10 5)) in
  (∃ d' sale,
     post_sales_within 65535 no_faults "2024-06-01T10:00:00.000Z" cashier req catalog2
     = (d', mkResponse 201 (SaleBody sale))
     ∧ stock_nonneg (products_json d'))
  ∧ post_sales_within 0 no_faults "2024-06-01T10:00:00.000Z" cashier req catalog2
    = (catalog2, server_error).
Proof.
  intros phone actions cart req. split.
  - destruct (billing_cart_commits 65535 actions "" "cash" 10 5 req
                "2024-06-01T10:00:00.000Z" cashier catalog2)
      as (_ & Hcommitted & _).
    + repeat constructor.
    + reflexivity.
    + reflexivity.
    + repeat constructor; simpl; lia.
    + destruct Hcommitted as (d' & sale & Hpost & Hnonneg & _); [reflexivity|].
      by exists d', sale.
  - apply (billing_cart_commits 0 actions "" "cash" 10 5 req
             "2024-06-01T10:00:00.000Z" cashier catalog2).
    + repeat constructor.
    + reflexivity.
    + reflexivity.
    + repeat constructor; simpl; lia.
    + simpl. lia.
Defined.

(** X18.  Adding the same product to an empty cart [n] times gives one line whose
    quantity is [n] capped at the stock of the product; a product without
    stock is never added. *)
Theorem addToCart_caps_at_stock product n :
  (Product.stock product ≤ 0 → Nat.iter n (Billing.addToCart product) [] = [])
  ∧ (1 ≤ Product.stock product → (1 ≤ n)%nat →
     ∃ item,
       Nat.iter n (Billing.addToCart product) [] = [item]
       ∧ SaleItem.productId item = Product.id product
       ∧ SaleItem.price item = Product.price product
       ∧ SaleItem.quantity item = Z.of_nat n `min` Product.stock product).
Proof.
  split.
  - intros Hnone. induction n as [|n IH]; [done|]. simpl. rewrite IH.
    unfold Billing.addToCart. rewrite (proj2 (Array_find_None _ _)) by constructor.
    apply Z.leb_le in Hnone. by rewrite Hnone.
  - intros Hstock Hn. induction n as [|n IH]; [lia|]. simpl.
    destruct n as [|n].
    + simpl. unfold Billing.addToCart.
      rewrite (proj2 (Array_find_None _ _)) by constructor.
      destruct (Z.leb_spec (Product.stock product) 0); [lia|].
      eexists. split_and!; [done..|]. simpl. lia.
    + destruct IH as (item & -> & Hid & Hprice & Hq); [lia|].
      unfold Billing.addToCart. rewrite Array_find_cons, decide_True by done.
      destruct (Z.leb_spec (Product.stock product) (SaleItem.quantity item)).
      * exists item. split_and!; [done..|]. lia.
      * simpl. rewrite decide_True by done.
        eexists. split_and!; [done..|]. simpl. lia.
Qed.

Lemma addToCart_caps_at_stock_witness :
  SaleItem.quantity <$> Nat.iter 5 (Billing.addToCart (product1 3)) [] = [3].
Proof.
  destruct (proj2 (addToCart_caps_at_stock (product1 3) 5)) as (item & -> & _ & _ & Hq).
  - simpl. lia.
  - lia.
  - simpl. by rewrite Hq.
Defined.

(** ** Roles *)

(** X19.  Calls by users whose role is not ADMIN, in any number and with any
    outcome, leave the categories as they are and change nothing of the
    products but stock levels and dates of last update. *)
Theorem non_admin_keeps_catalog toLowerCase requests : ∀ d,
  Forall (λ request : string * User.t * Call, User.role request.1.2 ≠ "ADMIN") requests →
  let d' := fold_left (serve toLowerCase) requests d in
  categories_json d' = categories_json d
  ∧ catalog_data <$> products_json d' = catalog_data <$> products_json d.
Proof.
  induction requests as [|[[now user] call] requests IH]; intros d Hroles; [done|].
  apply Forall_cons in Hroles as [Hrole Hroles]. simpl in Hrole.
  assert (User.role user ∉ ["ADMIN"]) as Hout.
  { by intros Heq%list_elem_of_singleton. }
  cbv zeta. cbn [fold_left].
  destruct (IH (serve toLowerCase d (now, user, call)) Hroles) as [-> ->].
  destruct call as [faults req|throws req|throws productId req|throws productId
                   |throws name description|throws categoryId]; simpl.
  - apply post_sales_catalog_data.
  - by destruct (requireRole_cases ["ADMIN"] user (post_products throws now req) d)
      as [[? _]|[_ ->]].
  - by destruct (requireRole_cases ["ADMIN"] user (put_products throws now productId req) d)
      as [[? _]|[_ ->]].
  - by destruct (requireRole_cases ["ADMIN"] user (delete_products throws productId) d)
      as [[? _]|[_ ->]].
  - by destruct (requireRole_cases ["ADMIN"] user
                   (post_categories toLowerCase throws now name description) d)
      as [[? _]|[_ ->]].
  - by destruct (requireRole_cases ["ADMIN"] user (delete_categories throws categoryId) d)
      as [[? _]|[_ ->]].
Qed.

Lemma non_admin_keeps_catalog_witness :
  let d' :=
    fold_left (serve ascii_toLowerCase)
      [("t1", cashier, PostProducts false (product_request "Mug" "MG001" 9));
       ("t2", cashier, PostSales no_faults (cart_request [CartLine.mk 1 2]));
       ("t3", cashier, DeleteCategories false 1)]
      catalog2 in
  categories_json d' = categories_json catalog2
  ∧ Product.stock <$> products_json d' = [1; 98].
Proof.
  split; [|reflexivity].
  apply (non_admin_keeps_catalog ascii_toLowerCase).
  repeat constructor; discriminate.
Defined.

(** ** Stock levels and categories across the routes *)

Lemma product_validation_stock req :
  product_validationResult_isEmpty req = true → 0 ≤ ProductRequest.stock req.
Proof.
  unfold product_validationResult_isEmpty. intros Hvalid.
  apply andb_prop in Hvalid as [Hvalid _]. apply andb_prop in Hvalid as [_ Hstock].
  by apply Z.leb_le.
Qed.

(** X20.  Through any sequence of calls of the routes in which every sale has a
    cart of distinct products, stock levels that were at or above zero stay
    so: the product routes only store a stock that passed
    [isInt({ min: 0 })], and a sale of distinct products is checked line by
    line. *)
Theorem calls_keep_stock_nonneg toLowerCase requests : ∀ d,
  Forall (λ request : string * User.t * Call,
            ∀ faults req, request.2 = PostSales faults req →
                          NoDup (CartLine.productId <$> SaleRequest.items req))
    requests →
  stock_nonneg (products_json d) →
  stock_nonneg (products_json (fold_left (serve toLowerCase) requests d)).
Proof.
  induction requests as [|[[now user] call] requests IH]; intros d Hcarts Hnonneg; [done|].
  apply Forall_cons in Hcarts as [Hcart Hcarts]. simpl in Hcart.
  cbn [fold_left]. apply IH; [done|]. clear IH Hcarts.
  destruct call as [faults req|throws req|throws productId req|throws productId
                   |throws name description|throws categoryId]; simpl.
  - apply post_sales_distinct_stock_nonneg; [by eapply Hcart | done].
  - destruct (requireRole_cases ["ADMIN"] user (post_products throws now req) d)
      as [[_ ->]|[_ ->]]; [|done].
    destruct (post_products_cases throws now req d) as [[-> _]|(Hvalid & _ & ->)]; [done|].
    simpl. apply Forall_app. split; [done|]. constructor; [|done].
    simpl. by apply product_validation_stock.
  - destruct (requireRole_cases ["ADMIN"] user (put_products throws now productId req) d)
      as [[_ ->]|[_ ->]]; [|done].
    destruct (put_products_cases throws now productId req d)
      as [[-> _]|(i & old & Hvalid & _ & _ & ->)]; [done|].
    simpl. apply Forall_insert; [done|]. simpl. by apply product_validation_stock.
  - destruct (requireRole_cases ["ADMIN"] user (delete_products throws productId) d)
      as [[_ ->]|[_ ->]]; [|done].
    destruct (delete_products_cases throws productId d) as [[-> _]|(_ & ->)]; [done|].
    simpl. apply Forall_forall. intros p [_ Hp]%list_elem_of_filter.
    by eapply Forall_forall in Hnonneg.
  - destruct (requireRole_cases ["ADMIN"] user
                (post_categories toLowerCase throws now name description) d)
      as [[_ ->]|[_ ->]]; [|done].
    by rewrite (proj1 (post_categories_products _ _ _ _ _ _)).
  - destruct (requireRole_cases ["ADMIN"] user (delete_categories throws categoryId) d)
      as [[_ ->]|[_ ->]]; [|done].
    by rewrite (proj1 (delete_categories_products _ _ _)).
Qed.

Lemma calls_keep_stock_nonneg_witness :
  stock_nonneg
    (products_json
       (fold_left (serve ascii_toLowerCase)
          [("t1", admin, PutProducts false 1 (product_request "Phone" "SP001" 1));
           ("t2", cashier, PostSales no_faults
                             (cart_request [CartLine.mk 1 7; CartLine.mk 2 98]));
           ("t3", admin, DeleteProducts false 2)]
          catalog2)).
Proof.
  apply calls_keep_stock_nonneg.
  - repeat constructor; intros faults req [= <- <-] || discriminate.
    all: apply (bool_decide_unpack _); by vm_compute.
  - repeat constructor; simpl; lia.
Defined.

Lemma post_products_within_short argument_limit throws now req d :
  Z.of_nat (length (products_json d)) < argument_limit →
  post_products_within argument_limit throws now req d
  = post_products throws now req d.
Proof.
  intros Hshort. unfold post_products_within, Math_max_spread.
  rewrite length_fmap. rewrite (proj2 (Z.ltb_lt _ _) Hshort).
  unfold post_products.
  destruct (product_validationResult_isEmpty req); simpl; [|done].
  by destruct (Array_find _ _).
Qed.

(** X21.  [POST /api/products] does not look at the categories.  While the
    products on file are short of the argument limit of the engine, a valid
    request with a new SKU is answered 201 whatever its [categoryId], and when
    no category has that id the product is listed by [GET /api/products]
    under the category name 'Unknown'.  Once the products have reached the
    limit, the answer is 500 and nothing is written. *)
Theorem post_products_unknown_category argument_limit now req d :
  product_validationResult_isEmpty req = true →
  Array_find (λ p, Product.sku p = ProductRequest.sku req) (products_json d) = None →
  (Z.of_nat (length (products_json d)) < argument_limit →
   ∃ d' product,
     post_products_within argument_limit false now req d = (d', ReplyJson 201 product)
     ∧ Product.categoryId product = ProductRequest.categoryId req
     ∧ (Array_find (λ c, Category.id c = ProductRequest.categoryId req)
          (categories_json d) = None →
        ProductRow.mk product "Unknown" ∈ get_products d'))
  ∧ (argument_limit ≤ Z.of_nat (length (products_json d)) →
     post_products_within argument_limit false now req d = (d, reply_server_error)).
Proof.
  intros Hvalid Hsku. split.
  - intros Hshort. eexists _, _. split_and!.
    + unfold post_products_within, Math_max_spread, post_products.
      rewrite Hvalid, Hsku, length_fmap. simpl.
      rewrite (proj2 (Z.ltb_lt _ _) Hshort). reflexivity.
    + done.
    + intros Hnone. unfold get_products. simpl. rewrite fmap_app.
      apply elem_of_app. right. simpl. rewrite Hnone. apply list_elem_of_here.
  - intros Hlong. unfold post_products_within, Math_max_spread.
    rewrite Hvalid, Hsku, length_fmap. simpl.
    by rewrite (proj2 (Z.ltb_ge _ _) Hlong).
Qed.

Lemma post_products_unknown_category_witness :
  (∃ d' product,
     post_products_within 65535 false "2024-06-01T10:00:00.000Z"
       (product_request "Mug" "MG001" 9) catalog2
     = (d', ReplyJson 201 product)
     ∧ ProductRow.mk product "Unknown" ∈ get_products d')
  ∧ post_products_within 2 false "2024-06-01T10:00:00.000Z"
      (product_request "Mug" "MG001" 9) catalog2
    = (catalog2, reply_server_error).
Proof.
  split.
  - destruct (proj1 (post_products_unknown_category 65535 "2024-06-01T10:00:00.000Z"
                       (product_request "Mug" "MG001" 9) catalog2 eq_refl eq_refl))
      as (d' & product & Hpost & _ & Hrow); [reflexivity|].
    exists d', product. split; [done|]. apply Hrow. reflexivity.
  - apply (post_products_unknown_category 2 "2024-06-01T10:00:00.000Z"
             (product_request "Mug" "MG001" 9) catalog2 eq_refl eq_refl).
    simpl. lia.
Defined.
